(** * Chartify_Pro_Rust: the statistics and chart-geometry engine

    A shallow embedding of [src/stats/calculator.rs] and of the geometry parts of
    [src/charts/plotter.rs] and [src/charts/renderer.rs].

    Rust's [f64] is Rocq's primitive [float] (IEEE 754 binary64, round to nearest
    even), so every arithmetic step below is the bit-exact step of the source.
    The operations that the source takes from libraries are parameters:
    [f64::ln] (libm), the Student's-t constructor and CDF (statrs), the order in
    which polars' [unique] lists a column, and the iteration order of a
    [HashMap]. *)

From Stdlib Require Import Floats ZArith Lia Bool Sorting.Permutation.
From stdpp Require Import base list gmap strings sorting.

Set Warnings "-inexact-float".
Open Scope float_scope.

(* ------------------------------------------------------------------ *)
(** ** Rust's [f64] primitives *)

(** [n as f64] for a [usize] [n]: exact below 2^53, correctly rounded above. *)
Definition usize_as_f64 (n : nat) : float :=
  SF2Prim (binary_normalize prec emax (Z.of_nat n) 0 false).

Definition usize_max : Z := (2 ^ 64 - 1)%Z.
Definition i64_min : Z := (- 2 ^ 63)%Z.
Definition i64_max : Z := (2 ^ 63 - 1)%Z.

(** [x.floor() as usize]: [as] saturates, NaN and negatives give 0. *)
Definition f64_floor_as_usize (x : float) : nat :=
  match Prim2SF x with
  | S754_finite false m e =>
      Z.to_nat (Z.min usize_max
        (if (0 <=? e)%Z then (Zpos m * 2 ^ e)%Z else (Zpos m / 2 ^ (- e))%Z))
  | S754_infinity false => Z.to_nat usize_max
  | _ => 0%nat
  end.

(** [x.ceil() as usize]. *)
Definition f64_ceil_as_usize (x : float) : nat :=
  match Prim2SF x with
  | S754_finite false m e =>
      Z.to_nat (Z.min usize_max
        (if (0 <=? e)%Z then (Zpos m * 2 ^ e)%Z
         else ((Zpos m + 2 ^ (- e) - 1) / 2 ^ (- e))%Z))
  | S754_infinity false => Z.to_nat usize_max
  | _ => 0%nat
  end.

(** [x.round() as i64]: [round] goes half away from zero; [as] saturates and
    maps NaN to 0. *)
Definition f64_round_as_i64 (x : float) : Z :=
  match Prim2SF x with
  | S754_finite s m e =>
      let mag :=
        if (0 <=? e)%Z then (Zpos m * 2 ^ e)%Z
        else let d := (2 ^ (- e))%Z in
             let q := (Zpos m / d)%Z in
             if (d <=? 2 * (Zpos m mod d))%Z then (q + 1)%Z else q in
      Z.max i64_min (Z.min i64_max (if s then (- mag)%Z else mag))
  | S754_infinity s => if s then i64_min else i64_max
  | _ => 0%Z
  end.

(** [x.powi(2)]: LLVM's [powi] with exponent 2 is one multiplication. *)
Definition powi2 (x : float) : float := x * x.

(** [iter().sum::<f64>()]: a left fold of [+] from [-0.0], the neutral element
    of [<f64 as Sum>]. *)
Definition f64_sum (xs : list float) : float :=
  fold_left (fun acc x => acc + x) xs neg_zero.

(** [a.partial_cmp(b).unwrap_or(Ordering::Equal)]. *)
Definition partial_cmp_or_equal (a b : float) : comparison :=
  match (a ?= b)%float with
  | FEq => Eq
  | FLt => Lt
  | FGt => Gt
  | FNotComparable => Eq
  end.

(** [sort_by] with that comparator: a stable sort.  On NaN-free input (the
    engine's input is NaN-filtered) every stable sort returns this list; the
    renderer's [partial_cmp(b).unwrap()] panics on NaN instead. *)
Fixpoint insert_sorted (x : float) (l : list float) : list float :=
  match l with
  | [] => [x]
  | y :: t =>
      match partial_cmp_or_equal y x with
      | Gt => x :: y :: t
      | _ => y :: insert_sorted x t
      end
  end.

Definition sort_by_partial_cmp (l : list float) : list float :=
  fold_left (fun acc x => insert_sorted x acc) l [].

(** [Iterator::find] over a list of floats. *)
Fixpoint find_first (P : float -> bool) (l : list float) : option float :=
  match l with
  | [] => None
  | x :: t => if P x then Some x else find_first P t
  end.

(** A list is ascending when each element is [<=] every later one. *)
Fixpoint sorted_asc (l : list float) : bool :=
  match l with
  | [] => true
  | x :: t => forallb (fun y => x <=? y) t && sorted_asc t
  end.

(* ------------------------------------------------------------------ *)
(** ** Acklam's coefficients, shared verbatim by both [normal_ppf] copies *)

Module Acklam.
Definition a0 := -3.969683028665376e+01.
Definition a1 := 2.209460984245205e+02.
Definition a2 := -2.759285104469687e+02.
Definition a3 := 1.383577518672690e+02.
Definition a4 := -3.066479806614716e+01.
Definition a5 := 2.506628277459239e+00.
Definition b0 := -5.447609879822406e+01.
Definition b1 := 1.615858368580409e+02.
Definition b2 := -1.556989798598866e+02.
Definition b3 := 6.680131188771972e+01.
Definition b4 := -1.328068155288572e+01.
Definition c0 := -7.784894002430293e-03.
Definition c1 := -3.223964580411365e-01.
Definition c2 := -2.400758277161838e+00.
Definition c3 := -2.549732539343734e+00.
Definition c4 := 4.374664141464968e+00.
Definition c5 := 2.938163982698783e+00.
Definition d0 := 7.784695709041462e-03.
Definition d1 := 3.224671290700398e-01.
Definition d2 := 2.445134137142996e+00.
Definition d3 := 3.754408661907416e+00.
End Acklam.

(* ------------------------------------------------------------------ *)
(** ** [src/charts/plotter.rs] *)

Module ChartPlotter.
Import Acklam.

Section WithLn.
(** [f64::ln], taken from libm. *)
Variable ln : float -> float.

(** [ChartPlotter::normal_ppf]. *)
Definition normal_ppf (p : float) : float :=
  if p <=? 0 then neg_infinity
  else if 1 <=? p then infinity
  else
    let p_low := 0.02425 in
    let p_high := 1 - p_low in
    if p <? p_low then
      let q := sqrt (-2 * ln p) in
      (((((c0 * q + c1) * q + c2) * q + c3) * q + c4) * q + c5)
        / ((((d0 * q + d1) * q + d2) * q + d3) * q + 1)
    else if p <=? p_high then
      let q := p - 0.5 in
      let r := q * q in
      (((((a0 * r + a1) * r + a2) * r + a3) * r + a4) * r + a5) * q
        / (((((b0 * r + b1) * r + b2) * r + b3) * r + b4) * r + 1)
    else
      let q := sqrt (-2 * ln (1 - p)) in
      (- (((((c0 * q + c1) * q + c2) * q + c3) * q + c4) * q + c5))
        / ((((d0 * q + d1) * q + d2) * q + d3) * q + 1).
End WithLn.

(** The points of [draw_qq_chart] for one group: the sorted values paired with
    the quantile position [i / (n - 1)], or [0.5] for a single value. *)
Definition quantile_points (values : list float) : list (float * float) :=
  let sorted := sort_by_partial_cmp values in
  let n := length sorted in
  imap (fun i val =>
          let quantile :=
            if (1 <? n)%nat then usize_as_f64 i / usize_as_f64 (n - 1) else 0.5 in
          (quantile, val)) sorted.

(** egui_plot's [BoxSpread::new(lower_whisker, q1, median, q3, upper_whisker)]. *)
Record BoxSpread := mk_box_spread {
  lower_whisker : float;
  quartile1 : float;
  median : float;
  quartile3 : float;
  upper_whisker : float
}.

(** The box of [draw_boxplot_chart], from the sorted values. *)
Definition box_spread (sorted : list float) : BoxSpread :=
  let n := length sorted in
  let q1_idx := (n / 4)%nat in
  let q2_idx := (n / 2)%nat in
  let q3_idx := (3 * n / 4)%nat in
  let q1 := default 0 (sorted !! q1_idx) in
  let median := default 0 (sorted !! q2_idx) in
  let q3 := default 0 (sorted !! q3_idx) in
  let iqr := q3 - q1 in
  let whisker_low := default q1 (find_first (fun v => q1 - 1.5 * iqr <=? v) sorted) in
  let whisker_high := default q3 (find_first (fun v => v <=? q3 + 1.5 * iqr) (rev sorted)) in
  mk_box_spread whisker_low q1 median q3 whisker_high.

(** [draw_boxplot_chart] sorts a group's values before taking the box. *)
Definition group_box (values : list float) : BoxSpread :=
  box_spread (sort_by_partial_cmp values).
(** The [value_indices] loop of [beeswarm_positions]: the value at index [i]
    goes to the key [(y * precision).round() as i64], whose list of indices
    gets [i] pushed at its end. *)
Fixpoint index_values (precision : float) (i : nat) (ys : list float)
    (value_indices : gmap Z (list nat)) : gmap Z (list nat) :=
  match ys with
  | [] => value_indices
  | y :: t =>
      let key := f64_round_as_i64 (y * precision) in
      index_values precision (S i) t
        (<[key := default [] (value_indices !! key) ++ [i]]> value_indices)
  end.

(** One turn of the spreading loop: a cluster of more than one index is laid
    out from [center - width / 2] in steps of [width / (count - 1)].  The
    indices are below [n], where Rust's [positions[idx] = ...] and stdpp's
    list insert agree. *)
Definition spread_cluster (center width : float) (positions : list float)
    (indices : list nat) : list float :=
  if (1 <? length indices)%nat then
    let count := length indices in
    let step := width / usize_as_f64 (Nat.max count 2 - 1) in
    let start := center - width / 2 in
    foldl (fun pos '(i, idx) => <[idx := start + usize_as_f64 i * step]> pos)
      positions (imap pair indices)
  else positions.

(** [beeswarm_positions], for a given iteration order of the [HashMap]:
    [values_of] lists the map's values in the order [values()] yields them. *)
Definition beeswarm_positions_by
    (values_of : gmap Z (list nat) -> list (list nat))
    (y_values : list float) (center width : float) : list float :=
  let n := length y_values in
  if (n =? 0)%nat then []
  else
    let positions := replicate n center in
    let precision := 1e6 in
    let value_indices := index_values precision 0 y_values ∅ in
    foldl (spread_cluster center width) positions (values_of value_indices).

(** [beeswarm_positions] with the map's values in key order. *)
Definition beeswarm_positions (y_values : list float) (center width : float)
    : list float :=
  beeswarm_positions_by (fun m => (map_to_list m).*2) y_values center width.
(** egui's [Color32], built by [Color32::from_rgb] (opaque). *)
Record Color32 := mk_color32 { c32_r : Z; c32_g : Z; c32_b : Z; c32_a : Z }.

#[global] Instance Color32_eq_dec : EqDecision Color32.
Proof. solve_decision. Defined.

#[global] Instance Color32_inhabited : Inhabited Color32 := populate (mk_color32 0 0 0 0).

Definition from_rgb (r g b : Z) : Color32 := mk_color32 r g b 255.

Definition CONTROL_COLOR : Color32 := from_rgb 52 152 219.

Definition PALETTE : list Color32 :=
  [from_rgb 231 76 60; from_rgb 46 204 113; from_rgb 155 89 182;
   from_rgb 243 156 18; from_rgb 26 188 156; from_rgb 233 30 99;
   from_rgb 0 188 212; from_rgb 255 87 34; from_rgb 121 85 72;
   from_rgb 96 125 139].

(** [ChartPlotter::get_group_color]: the index is taken modulo the palette's
    length, so [PALETTE[...]] is always in range. *)
Definition get_group_color (group control_group : string) (group_index : nat) : Color32 :=
  if bool_decide (group = control_group) then CONTROL_COLOR
  else PALETTE !!! (group_index mod length PALETTE)%nat.

(** The colour loop shared by [draw_boxplot_chart] and [draw_qq_chart]: the
    ordered groups, those without values skipped ([unwrap_or_default] on a
    missing entry), each drawn group with its colour; [non_control_idx]
    counts the non-control groups drawn so far. *)
Fixpoint series_colors (control_group : string) (data_by_group : gmap string (list float))
    (groups : list string) (non_control_idx : nat) : list (string * Color32) :=
  match groups with
  | [] => []
  | group :: rest =>
      let values := default [] (data_by_group !! group) in
      if bool_decide (values = []) then
        series_colors control_group data_by_group rest non_control_idx
      else
        (group, get_group_color group control_group non_control_idx) ::
        series_colors control_group data_by_group rest
          (if bool_decide (group = control_group) then non_control_idx
           else S non_control_idx)
  end.
End ChartPlotter.

(* ------------------------------------------------------------------ *)
(** ** [src/charts/renderer.rs] *)

Module StaticChartRenderer.
Import Acklam.
Import ChartPlotter (BoxSpread, mk_box_spread).

Section WithLn.
Variable ln : float -> float.

(** [StaticChartRenderer::normal_ppf]: the sentinels are [-3.5] and [3.5]. *)
Definition normal_ppf (p : float) : float :=
  if p <=? 0 then -3.5
  else if 1 <=? p then 3.5
  else
    let p_low := 0.02425 in
    if p <? p_low then
      let q := sqrt (-2 * ln p) in
      (((((c0 * q + c1) * q + c2) * q + c3) * q + c4) * q + c5)
        / ((((d0 * q + d1) * q + d2) * q + d3) * q + 1)
    else if p <=? 1 - p_low then
      let q := p - 0.5 in
      let r := q * q in
      (((((a0 * r + a1) * r + a2) * r + a3) * r + a4) * r + a5) * q
        / (((((b0 * r + b1) * r + b2) * r + b3) * r + b4) * r + 1)
    else
      let q := sqrt (-2 * ln (1 - p)) in
      (- (((((c0 * q + c1) * q + c2) * q + c3) * q + c4) * q + c5))
        / ((((d0 * q + d1) * q + d2) * q + d3) * q + 1).

(** The points of [draw_qq_plot] for one group, before the pixel mapping
    [map_x]/[map_y]: each sorted value [v] with its normal score
    [normal_ppf ((i + 0.5) / n)]. *)
Definition qq_points (vals : list float) : list (float * float) :=
  let sorted := sort_by_partial_cmp vals in
  let n := length sorted in
  imap (fun i v =>
          let p := (usize_as_f64 i + 0.5) / usize_as_f64 n in
          let t := normal_ppf p in
          (t, v)) sorted.
End WithLn.

(** The box of [draw_boxplot]: [sorted[i]] panics out of range, modelled as
    [None]. *)
Definition box_spread (sorted : list float) : option BoxSpread :=
  let len := length sorted in
  q1 ← sorted !! (len / 4)%nat;
  q3 ← sorted !! (3 * len / 4)%nat;
  med ← sorted !! (len / 2)%nat;
  let iqr := q3 - q1 in
  let low := default q1 (find_first (fun v => q1 - 1.5 * iqr <=? v) sorted) in
  let high := default q3 (find_first (fun v => v <=? q3 + 1.5 * iqr) (rev sorted)) in
  Some (mk_box_spread low q1 med q3 high).
(** image's [Rgba<u8>]. *)
Record Rgba := mk_rgba { rgba_r : Z; rgba_g : Z; rgba_b : Z; rgba_a : Z }.

#[global] Instance Rgba_eq_dec : EqDecision Rgba.
Proof. solve_decision. Defined.

Definition BLUE : Rgba := mk_rgba 91 155 213 255.
Definition RED : Rgba := mk_rgba 237 125 49 255.
Definition GREEN : Rgba := mk_rgba 112 173 71 255.
Definition LIGHT_BLUE : Rgba := mk_rgba 189 215 238 255.
Definition LIGHT_RED : Rgba := mk_rgba 248 203 173 255.
Definition LIGHT_GREEN : Rgba := mk_rgba 198 224 180 255.

(** [StaticChartRenderer::get_colors]. *)
Definition get_colors (idx : nat) (is_control filled : bool) : Rgba :=
  if is_control then (if filled then LIGHT_BLUE else BLUE)
  else if (idx mod 2 =? 0)%nat then (if filled then LIGHT_RED else RED)
  else (if filled then LIGHT_GREEN else GREEN).

(** The colour loop of [draw_legend]: every ordered group gets a legend entry;
    [non_ctrl_idx] counts the non-control groups seen so far. *)
Fixpoint legend_colors (control : string) (groups : list string) (non_ctrl_idx : nat)
    : list (string * Rgba) :=
  match groups with
  | [] => []
  | group :: rest =>
      let is_ctrl := bool_decide (group = control) in
      (group, get_colors non_ctrl_idx is_ctrl false) ::
      legend_colors control rest (if is_ctrl then non_ctrl_idx else S non_ctrl_idx)
  end.

(** The colour loop of [draw_boxplot] ([filled] for the box, not for its
    outline) and of [draw_qq_plot]: groups with no entry in [data_by_group],
    or an empty one, are skipped before [non_ctrl_idx] moves on. *)
Fixpoint plot_colors (control : string) (data_by_group : gmap string (list float))
    (filled : bool) (groups : list string) (non_ctrl_idx : nat) : list (string * Rgba) :=
  match groups with
  | [] => []
  | group :: rest =>
      match data_by_group !! group with
      | None => plot_colors control data_by_group filled rest non_ctrl_idx
      | Some vals =>
          if bool_decide (vals = []) then
            plot_colors control data_by_group filled rest non_ctrl_idx
          else
            let is_ctrl := bool_decide (group = control) in
            (group, get_colors non_ctrl_idx is_ctrl filled) ::
            plot_colors control data_by_group filled rest
              (if is_ctrl then non_ctrl_idx else S non_ctrl_idx)
      end
  end.
End StaticChartRenderer.

(* ------------------------------------------------------------------ *)
(** ** [src/stats/calculator.rs] *)

Module StatsCalculator.

(** Significance threshold for the t-test. *)
Definition SIGNIFICANCE_THRESHOLD : float := 0.05.

(** Statistics for a single group. *)
Record GroupStats := mk_group_stats {
  group_name : string;
  count : nat;
  mean : float;
  median : float;
  std : float;
  variance : float;
  p95 : float;
  p05 : float;
  std_diff_from_control : option float;
  p_value : option float;
  is_significant : bool
}.

(** [impl Default for GroupStats]. *)
Definition default_group_stats : GroupStats :=
  mk_group_stats "" 0 nan nan nan nan nan nan None None false.

(** The field assignments [gs.group_name = ...], [gs.std_diff_from_control =
    ...], [gs.p_value = ...] and [gs.is_significant = ...]. *)
Definition set_group_name (name : string) (gs : GroupStats) : GroupStats :=
  mk_group_stats name (count gs) (mean gs) (median gs) (std gs) (variance gs)
    (p95 gs) (p05 gs) (std_diff_from_control gs) (p_value gs) (is_significant gs).

Definition set_std_diff (d : option float) (gs : GroupStats) : GroupStats :=
  mk_group_stats (group_name gs) (count gs) (mean gs) (median gs) (std gs)
    (variance gs) (p95 gs) (p05 gs) d (p_value gs) (is_significant gs).

Definition set_ttest (pv : option float) (sig : bool) (gs : GroupStats) : GroupStats :=
  mk_group_stats (group_name gs) (count gs) (mean gs) (median gs) (std gs)
    (variance gs) (p95 gs) (p05 gs) (std_diff_from_control gs) pv sig.

(** Statistics for a data type across all groups. *)
Record DataTypeStats := mk_data_type_stats {
  data_type : string;
  control_group : string;
  group_stats : gmap string GroupStats
}.

(** Slice indexing [sorted[i]] on an index that the callers keep in range. *)
Definition index (l : list float) (i : nat) : float := default nan (l !! i).

(** [StatsCalculator::percentile]: linear interpolation (NumPy's default). *)
Definition percentile (sorted_values : list float) (p : float) : float :=
  let n := length sorted_values in
  if (n =? 0)%nat then nan
  else if (n =? 1)%nat then index sorted_values 0
  else
    let rank := (p / 100) * usize_as_f64 (n - 1) in
    let lower := f64_floor_as_usize rank in
    let upper := Nat.min (f64_ceil_as_usize rank) (n - 1) in
    let frac := rank - usize_as_f64 lower in
    if (lower =? upper)%nat then index sorted_values lower
    else index sorted_values lower * (1 - frac) + index sorted_values upper * frac.

(** [StatsCalculator::compute_descriptive_stats]. *)
Definition compute_descriptive_stats (values : list float) : GroupStats :=
  let n := length values in
  if (n =? 0)%nat then default_group_stats
  else
    let sorted := sort_by_partial_cmp values in
    let mean := f64_sum values / usize_as_f64 n in
    let median :=
      if (n mod 2 =? 0)%nat
      then (index sorted (n / 2 - 1) + index sorted (n / 2)) / 2
      else index sorted (n / 2) in
    let variance :=
      if (1 <? n)%nat
      then f64_sum (map (fun x => powi2 (x - mean)) values) / usize_as_f64 (n - 1)
      else 0 in
    let std := sqrt variance in
    let p95 := percentile sorted 95 in
    let p05 := percentile sorted 5 in
    mk_group_stats "" n mean median std variance p95 p05 None None false.

Section TTest.
(** statrs' [StudentsT::new(location, scale, freedom)] and the CDF of the
    distribution it builds. *)
Variable StudentsT : Type.
Variable students_t_new : float -> float -> float -> option StudentsT.
Variable cdf : StudentsT -> float -> float.

(** [StatsCalculator::perform_ttest]: Welch's t-test. *)
Definition perform_ttest (group_values control_values : list float) : float * bool :=
  let n1 := usize_as_f64 (length group_values) in
  let n2 := usize_as_f64 (length control_values) in
  if (n1 <? 2) || (n2 <? 2) then (nan, false)
  else
    let mean1 := f64_sum group_values / n1 in
    let mean2 := f64_sum control_values / n2 in
    let var1 := f64_sum (map (fun x => powi2 (x - mean1)) group_values) / (n1 - 1) in
    let var2 := f64_sum (map (fun x => powi2 (x - mean2)) control_values) / (n2 - 1) in
    let se := sqrt (var1 / n1 + var2 / n2) in
    if se =? 0 then (1, false)
    else
      let t := (mean1 - mean2) / se in
      let df_num := powi2 (var1 / n1 + var2 / n2) in
      let df_denom := powi2 (var1 / n1) / (n1 - 1) + powi2 (var2 / n2) / (n2 - 1) in
      let df := df_num / df_denom in
      match students_t_new 0 1 df with
      | Some dist =>
          let p_value := 2 * (1 - cdf dist (abs t)) in
          let is_significant := p_value <=? SIGNIFICANCE_THRESHOLD in
          (p_value, is_significant)
      | None => (nan, false)
      end.

(** The standard error and the Welch-Satterthwaite degrees of freedom that
    [perform_ttest] computes on its way (the same expressions, named). *)
Definition welch_se (group_values control_values : list float) : float :=
  let n1 := usize_as_f64 (length group_values) in
  let n2 := usize_as_f64 (length control_values) in
  let mean1 := f64_sum group_values / n1 in
  let mean2 := f64_sum control_values / n2 in
  let var1 := f64_sum (map (fun x => powi2 (x - mean1)) group_values) / (n1 - 1) in
  let var2 := f64_sum (map (fun x => powi2 (x - mean2)) control_values) / (n2 - 1) in
  sqrt (var1 / n1 + var2 / n2).

Definition welch_df (group_values control_values : list float) : float :=
  let n1 := usize_as_f64 (length group_values) in
  let n2 := usize_as_f64 (length control_values) in
  let mean1 := f64_sum group_values / n1 in
  let mean2 := f64_sum control_values / n2 in
  let var1 := f64_sum (map (fun x => powi2 (x - mean1)) group_values) / (n1 - 1) in
  let var2 := f64_sum (map (fun x => powi2 (x - mean2)) control_values) / (n2 - 1) in
  let df_num := powi2 (var1 / n1 + var2 / n2) in
  let df_denom := powi2 (var1 / n1) / (n1 - 1) + powi2 (var2 / n2) / (n2 - 1) in
  df_num / df_denom.

(** A row of the input table: the columns [group], [data_type] and the
    nullable [f64] column [value]. *)
Record Row := mk_row {
  row_group : string;
  row_data_type : string;
  row_value : option float
}.

(** [get_values_for_group]: the non-null values of the rows of [group]. *)
Definition get_values_for_group (df : list Row) (group : string) : list float :=
  omap row_value (filter (fun r => row_group r = group) df).

(** [get_values_for_data_type_and_group]. *)
Definition get_values_for_data_type_and_group (df : list Row)
    (data_type group : string) : list float :=
  omap row_value (filter (fun r => row_data_type r = data_type /\ row_group r = group) df).

(** polars' [Series::unique] on the [group] column: the distinct names, in an
    order polars does not fix. *)
Variable unique : list string -> list string.

Definition dquote : Ascii.ascii := Ascii.ascii_of_nat 34.

(** [AnyValue::to_string] of a string value: the string in double quotes. *)
Definition anyvalue_to_string (s : string) : string :=
  String dquote (s +:+ String dquote EmptyString).

(** [str::trim_matches] on the double-quote character. *)
Fixpoint trim_start_quotes (s : string) : string :=
  match s with
  | String c t => if Ascii.eqb c dquote then trim_start_quotes t else s
  | EmptyString => EmptyString
  end.

Definition trim_matches_quote (s : string) : string :=
  String.rev (trim_start_quotes (String.rev (trim_start_quotes s))).

(** The body of the loop over the non-control groups. *)
Definition group_entry (type_df : list Row) (control_values : list float)
    (control_std control_mean : float) (group_name : string) : GroupStats :=
  let values := get_values_for_group type_df group_name in
  let gs := set_group_name group_name (compute_descriptive_stats values) in
  let gs :=
    if (0 <? control_std) && negb (is_nan control_mean)
    then set_std_diff (Some ((mean gs - control_mean) / control_std)) gs
    else gs in
  if negb (bool_decide (control_values = []))
  then let '(p_value, is_significant) := perform_ttest values control_values in
       set_ttest (Some p_value) is_significant gs
  else gs.

(** [StatsCalculator::compute_data_type_stats]. *)
Definition compute_data_type_stats (df : list Row) (data_type control_group : string)
    : DataTypeStats :=
  let type_df := filter (fun r => row_data_type r = data_type) df in
  let groups :=
    map (fun v => trim_matches_quote (anyvalue_to_string v))
      (unique (map row_group type_df)) in
  let control_values := get_values_for_group type_df control_group in
  let control_stats :=
    set_group_name control_group (compute_descriptive_stats control_values) in
  let control_std := std control_stats in
  let control_mean := mean control_stats in
  let group_stats := <[control_group := control_stats]> (∅ : gmap string GroupStats) in
  let group_stats :=
    foldl (fun gsm group_name =>
             if bool_decide (group_name = control_group) then gsm
             else <[group_name :=
                      group_entry type_df control_values control_std control_mean
                        group_name]> gsm)
      group_stats groups in
  mk_data_type_stats data_type control_group group_stats.

(** [StatsCalculator::compute_all_stats_parallel]: the statistics of every
    data type of the table, collected into a map.  Equal keys carry equal
    statistics, so the order in which the parallel iterator delivers them
    does not matter. *)
Definition compute_all_stats_parallel (df : list Row) (control_group : string)
    : gmap string DataTypeStats :=
  let data_types :=
    map (fun v => trim_matches_quote (anyvalue_to_string v))
      (unique (map row_data_type df)) in
  list_to_map (map (fun data_type =>
                      (data_type, compute_data_type_stats df data_type control_group))
                 data_types).
End TTest.

(** [DataTypeStats::get_ordered_groups]: the group names sorted by [String]'s
    order (byte-wise lexicographic), then the control moved to the front.
    The names are distinct, so every sorting algorithm gives this list. *)
Definition get_ordered_groups (s : DataTypeStats) : list string :=
  let groups := merge_sort String.le ((map_to_list (group_stats s)).*1) in
  match list_find (fun g => g = control_group s) groups with
  | Some (pos, _) => control_group s :: delete pos groups
  | None => groups
  end.

(** [DataTypeStats::has_significant_results]. *)
Definition has_significant_results (s : DataTypeStats) : bool :=
  existsb (fun '(name, gs) => negb (bool_decide (name = control_group s)) && is_significant gs)
    (map_to_list (group_stats s)).
End StatsCalculator.

(* ------------------------------------------------------------------ *)
(** ** [src/data/processor.rs] *)

Module DataProcessor.
Import StatsCalculator.

(** A row of the loaded table read at the user's three columns: the group and
    the data type (string columns, [None] for null) and the value after the
    cast to [Float64] ([None] for null or not castable). *)
Record RawRow := mk_raw_row {
  raw_group : option string;
  raw_data_type : option string;
  raw_value : option float
}.

(** The row loop of [DataProcessor::prepare_data] in [DataMode::Single]: a row
    is kept when its value is present and not NaN and its group and data type
    are not null; group and data type go through [to_string] and
    [trim_matches] on the double-quote character. *)
Definition prepare_data_single (rows : list RawRow) : list Row :=
  omap (fun r =>
          match raw_group r, raw_data_type r, raw_value r with
          | Some g, Some dt, Some v =>
              if negb (is_nan v) then
                Some (mk_row (trim_matches_quote (anyvalue_to_string g))
                             (trim_matches_quote (anyvalue_to_string dt)) (Some v))
              else None
          | _, _, _ => None
          end) rows.

(** [ProcessorError]; the message of a polars error is left out. *)
Inductive ProcessorError :=
  | PolarsError
  | MissingSingleModeColumns
  | MissingMultiModeColumns.

(** What [df.column(data_col)] followed by the cast to [Float64] gives for a
    value column: no such column, a failed cast, or the cells (all columns of
    a [DataFrame] have its height). *)
Inductive ValueColumn :=
  | Absent
  | CastFailed
  | Cast (cells : list (option float)).

(** The row loop of [stack_to_long] for one value column: [to_string] and
    [trim_matches] on the double quote for the group, the column's name as
    the data type. *)
Definition stack_column (group_series : list (option string)) (data_col : string)
    (cells : list (option float)) : list Row :=
  omap (fun '(g, v) =>
          match g, v with
          | Some g, Some v =>
              if negb (is_nan v) then
                Some (mk_row (trim_matches_quote (anyvalue_to_string g)) data_col (Some v))
              else None
          | _, _ => None
          end) (zip group_series cells).

(** [DataProcessor::stack_to_long]: [None] for a missing group column; a value
    column that is absent is skipped, one whose cast fails ends the function
    with the error. *)
Fixpoint stack_columns (group_series : list (option string))
    (value_column : string -> ValueColumn) (data_cols : list string)
    : ProcessorError + list Row :=
  match data_cols with
  | [] => inr []
  | data_col :: rest =>
      match value_column data_col with
      | Absent => stack_columns group_series value_column rest
      | CastFailed => inl PolarsError
      | Cast cells =>
          match stack_columns group_series value_column rest with
          | inl e => inl e
          | inr rows => inr (stack_column group_series data_col cells ++ rows)
          end
      end
  end.

Definition stack_to_long (group_series : option (list (option string)))
    (value_column : string -> ValueColumn) (data_cols : list string)
    : ProcessorError + list Row :=
  match group_series with
  | None => inl PolarsError
  | Some group_series => stack_columns group_series value_column data_cols
  end.

(** [DataProcessor::prepare_data] in [DataMode::Multi]. *)
Definition prepare_data_multi (group_series : option (list (option string)))
    (value_column : string -> ValueColumn) (data_cols : option (list string))
    : ProcessorError + list Row :=
  match data_cols with
  | None => inl MissingMultiModeColumns
  | Some data_cols =>
      if bool_decide (data_cols = []) then inl MissingMultiModeColumns
      else stack_to_long group_series value_column data_cols
  end.
End DataProcessor.

(* ------------------------------------------------------------------ *)
(** ** [src/gui/app.rs] *)

Module ChartifyApp.
Import StatsCalculator.

(** [charts::ChartData], with fields [data_type], [data_by_group] and
    [stats]. *)
Record ChartData := mk_chart_data {
  chart_data_type : string;
  data_by_group : gmap string (list float);
  chart_stats : DataTypeStats
}.

(** The loop of [run_calculation] over [stat.get_ordered_groups()]: each
    group's values of the data type, NaN removed. *)
Definition chart_data_by_group (processed_df : list Row) (data_type : string)
    (stat : DataTypeStats) : gmap string (list float) :=
  foldl (fun data_by_group group =>
           <[group := filter (fun v => is_nan v = false)
                        (get_values_for_data_type_and_group processed_df data_type group)]>
             data_by_group)
    ∅ (get_ordered_groups stat).

Section Calc.
Variable StudentsT : Type.
Variable students_t_new : float -> float -> float -> option StudentsT.
Variable cdf : StudentsT -> float -> float.
Variable unique : list string -> list string.

(** [run_calculation] from the processed table to the chart data: one
    [ChartData] per key of [compute_all_stats_parallel]. *)
Definition run_calculation_chart_data (processed_df : list Row) (control_group : string)
    : gmap string ChartData :=
  let stats :=
    compute_all_stats_parallel StudentsT students_t_new cdf unique processed_df control_group in
  list_to_map (map (fun '(data_type, stat) =>
                      (data_type,
                       mk_chart_data data_type (chart_data_by_group processed_df data_type stat) stat))
                 (map_to_list stats)).
End Calc.
End ChartifyApp.

(* ------------------------------------------------------------------ *)
(** ** [src/gui/chart_viewer.rs] *)

Module ChartViewerWidget.
Import StatsCalculator ChartifyApp.

(** [ChartViewer], with fields [chart_data] and [data_type_order]. *)
Record ChartViewer := mk_chart_viewer {
  chart_data : gmap string ChartData;
  data_type_order : list string
}.

(** [ChartViewer::set_chart_data]: the loop over the map puts each data type
    with a significant result into [mismatch], every other one into
    [match_items]; both are sorted ([String]'s order) and [mismatch] comes
    first.  The data types are distinct, so every sorting algorithm gives
    this order. *)
Definition set_chart_data (self : ChartViewer) (chart_data : gmap string ChartData)
    : ChartViewer :=
  let '(mismatch, match_items) :=
    foldl (fun '(mismatch, match_items) '(data_type, data) =>
             if has_significant_results (chart_stats data)
             then (mismatch ++ [data_type], match_items)
             else (mismatch, match_items ++ [data_type]))
      ([], []) (map_to_list chart_data) in
  mk_chart_viewer chart_data (merge_sort String.le mismatch ++ merge_sort String.le match_items).
(** An entry of the chart map that [set_chart_data] puts in its first part. *)
Definition significant_entry (p : string * ChartData) : Prop :=
  has_significant_results (chart_stats p.2) = true.
End ChartViewerWidget.

(* ------------------------------------------------------------------ *)
(** ** Models of the library operations, for concrete instances

    The theorems below hold for every [ln], every Student's-t constructor and
    CDF, every [unique] and every [HashMap] order.  To evaluate the engine on a
    concrete input the following stand-ins are used. *)

Module LibModels.

(** [z as f64] for an integer [z]. *)
Definition Z_as_f64 (z : Z) : float := SF2Prim (binary_normalize prec emax z 0 false).

Definition LN_2 : float := 0.6931471805599453.

(** [f64::ln]: [x = m * 2^e] with [m] in [[sqrt(1/2), sqrt 2)], and
    [ln m = 2 atanh s] with [s = (m - 1) / (m + 1)], summed to [s^41]. *)
Fixpoint atanh_series (k : nat) (s2 acc : float) : float :=
  match k with
  | O => acc
  | S k' => atanh_series k' s2 (1 / usize_as_f64 (2 * k' + 1) + s2 * acc)
  end.

Definition ln (x : float) : float :=
  if is_nan x || (x <? 0) then nan
  else if x =? 0 then neg_infinity
  else if x =? infinity then infinity
  else
    let '(m, e) := Z.frexp x in
    let '(m, e) := if m <? 0.7071067811865476 then (2 * m, (e - 1)%Z) else (m, e) in
    let s := (m - 1) / (m + 1) in
    Z_as_f64 e * LN_2 + 2 * s * atanh_series 20 (s * s) 0.

(** [f64::exp]: [x = k ln 2 + r], [exp r] by its Taylor polynomial of
    degree 20, scaled by [2^k]. *)
Fixpoint exp_taylor (k : nat) (r acc : float) : float :=
  match k with
  | O => acc
  | S k' => exp_taylor k' r (1 + r / usize_as_f64 (S k') * acc)
  end.

Definition exp (x : float) : float :=
  if is_nan x then nan
  else if 709.782712893384 <? x then infinity
  else if x <? -745.1332191019412 then 0
  else
    let k := f64_round_as_i64 (x / LN_2) in
    let r := x - Z_as_f64 k * LN_2 in
    Z.ldexp (exp_taylor 20 r 1) k.

(** [ChartPlotter::erf] and [ChartPlotter::normal_cdf] of [plotter.rs]. *)
Definition erf (x : float) : float :=
  let a1 := 0.254829592 in
  let a2 := -0.284496736 in
  let a3 := 1.421413741 in
  let a4 := -1.453152027 in
  let a5 := 1.061405429 in
  let p := 0.3275911 in
  let sign := if x <? 0 then -1 else 1 in
  let x := abs x in
  let t := 1 / (1 + p * x) in
  let y := 1 - (((((a5 * t + a4) * t) + a3) * t + a2) * t + a1) * t * exp (- x * x) in
  sign * y.

Definition normal_cdf (x : float) : float :=
  0.5 * (1 + erf (x / 1.4142135623730951)).

(** statrs' [StudentsT::new]: it refuses a NaN location, a NaN or
    non-positive scale, and a NaN or non-positive number of degrees of
    freedom. *)
Record StudentsT := mk_students_t { st_location : float; st_scale : float; st_freedom : float }.

Definition students_t_new (location scale freedom : float) : option StudentsT :=
  if is_nan location then None
  else if is_nan scale || (scale <=? 0) then None
  else if is_nan freedom || (freedom <=? 0) then None
  else Some (mk_students_t location scale freedom).

(** Its CDF, approximated by the normal CDF (the limit for many degrees of
    freedom). *)
Definition students_t_cdf (d : StudentsT) (x : float) : float :=
  normal_cdf ((x - st_location d) / st_scale d).

(** polars' [unique], keeping first occurrences. *)
Definition unique (col : list string) : list string := remove_dups col.

(** A table of two groups of one data type: [A] (the control) and [B]. *)
Definition sample_rows : list StatsCalculator.Row :=
  map (fun v => StatsCalculator.mk_row "A" "x" (Some v)) [1; 2; 3; 1; 2; 3] ++
  map (fun v => StatsCalculator.mk_row "B" "x" (Some v)) [10; 11; 12; 10; 11; 12].

Definition sample_stats (control_group : string) : StatsCalculator.DataTypeStats :=
  StatsCalculator.compute_data_type_stats StudentsT students_t_new students_t_cdf
    unique sample_rows "x" control_group.

(** The same kind of table as loaded, before [prepare_data]: a NaN value and a
    null group among the rows. *)
Definition sample_raw_rows : list DataProcessor.RawRow :=
  [DataProcessor.mk_raw_row (Some "A") (Some "x") (Some 1);
   DataProcessor.mk_raw_row (Some "A") (Some "x") (Some 2);
   DataProcessor.mk_raw_row (Some "A") (Some "x") (Some 4);
   DataProcessor.mk_raw_row (Some "B") (Some "x") (Some 3);
   DataProcessor.mk_raw_row (Some "B") (Some "x") (Some nan);
   DataProcessor.mk_raw_row None (Some "x") (Some 4);
   DataProcessor.mk_raw_row (Some "B") (Some "x") (Some 5);
   DataProcessor.mk_raw_row (Some "C") (Some "y") (Some 7)].

(** A wide table for the multi-column mode: a group column with a null, the
    value columns [m1] (with a NaN) and [m2] (with a null); [m3] is not a
    column of the table. *)
Definition sample_group_series : list (option string) :=
  [Some "A"; Some "B"; None; Some "A"].

Definition sample_value_column (name : string) : DataProcessor.ValueColumn :=
  if bool_decide (name = "m1") then DataProcessor.Cast [Some 1; Some 2; Some 3; Some nan]
  else if bool_decide (name = "m2") then DataProcessor.Cast [Some 4; None; Some 6; Some 7]
  else DataProcessor.Absent.
End LibModels.

(* ================================================================== *)
(** * Properties *)

Import ChartPlotter (BoxSpread, mk_box_spread, lower_whisker, quartile1, median,
  quartile3, upper_whisker).

(* ------------------------------------------------------------------ *)
(** ** Sorting and searching *)

Lemma insert_sorted_length (x : float) (l : list float) :
  length (insert_sorted x l) = S (length l).
Proof.
  induction l as [|y t IH]; simpl; [done|].
  destruct (partial_cmp_or_equal y x); simpl; auto.
Qed.

Lemma sort_by_partial_cmp_length (l : list float) :
  length (sort_by_partial_cmp l) = length l.
Proof.
  unfold sort_by_partial_cmp.
  assert (Hgen : forall acc, length (fold_left (fun acc x => insert_sorted x acc) l acc)
                             = (length acc + length l)%nat).
  { induction l as [|x t IH]; intros acc; simpl; [lia|].
    rewrite IH, insert_sorted_length. simpl. lia. }
  rewrite Hgen. done.
Qed.

Lemma find_first_app (P : float -> bool) (l1 l2 : list float) :
  find_first P (l1 ++ l2) =
  match find_first P l1 with Some w => Some w | None => find_first P l2 end.
Proof. induction l1 as [|x t IH]; simpl; [done|]. destruct (P x); auto. Qed.

Lemma find_first_some (P : float -> bool) (l : list float) (w : float) :
  find_first P l = Some w -> w ∈ l /\ P w = true.
Proof.
  induction l as [|x t IH]; simpl; [done|].
  destruct (P x) eqn:Hx.
  - intros [= <-]. split; [left|]; done.
  - intros H. destruct (IH H) as [Hin HP]. split; [right|]; done.
Qed.

Lemma find_first_none (P : float -> bool) (l : list float) :
  find_first P l = None -> forall v, v ∈ l -> P v = false.
Proof.
  induction l as [|x t IH]; simpl; intros H v Hv; [inversion Hv|].
  destruct (P x) eqn:Hx; [done|].
  inversion Hv; subst; auto.
Qed.

Lemma sorted_asc_cons (x : float) (t : list float) :
  sorted_asc (x :: t) = true ->
  (forall y, y ∈ t -> (x <=? y) = true) /\ sorted_asc t = true.
Proof.
  simpl. intros [Hall Ht]%andb_prop. split; [|done].
  intros y Hy. apply forallb_forall with (x := y) in Hall; [done|].
  by apply list_elem_of_In.
Qed.

Lemma elem_of_rev (x : float) (l : list float) : x ∈ rev l <-> x ∈ l.
Proof. rewrite !list_elem_of_In. split; [apply in_rev|apply in_rev]. Qed.

(** On an ascending list, the first element passing a test is the lowest
    element passing it. *)
Lemma find_first_lowest (P : float -> bool) (l : list float) (w : float) :
  sorted_asc l = true -> find_first P l = Some w ->
  forall v, v ∈ l -> P v = true -> v = w \/ (w <=? v) = true.
Proof.
  induction l as [|x t IH]; simpl; [done|].
  intros Hs Hf v Hv HP.
  apply sorted_asc_cons in Hs as [Hx Ht].
  destruct (P x) eqn:HPx.
  - injection Hf as <-. inversion Hv; subst; [left; done|]. right. auto.
  - inversion Hv; subst; [congruence|]. auto.
Qed.

(** Searching the reversed ascending list finds the highest element passing
    the test. *)
Lemma find_first_rev_highest (P : float -> bool) (l : list float) (w : float) :
  sorted_asc l = true -> find_first P (rev l) = Some w ->
  forall v, v ∈ l -> P v = true -> v = w \/ (v <=? w) = true.
Proof.
  induction l as [|x t IH]; simpl; [done|].
  intros Hs Hf v Hv HP.
  apply sorted_asc_cons in Hs as [Hx Ht].
  rewrite find_first_app in Hf. simpl in Hf.
  destruct (find_first P (rev t)) as [w'|] eqn:Hft.
  - injection Hf as <-.
    apply find_first_some in Hft as [Hin _].
    rewrite elem_of_rev in Hin.
    inversion Hv; subst; [|auto]. right. auto.
  - destruct (P x) eqn:HPx; [|done]. injection Hf as <-.
    inversion Hv; subst; [left; done|].
    exfalso. eapply find_first_none in Hft; [|rewrite elem_of_rev; eassumption].
    congruence.
Qed.

Lemma lookup_quartile_indices (l : list float) :
  (1 <= length l)%nat ->
  is_Some (l !! (length l / 4)%nat) /\ is_Some (l !! (length l / 2)%nat) /\
  is_Some (l !! (3 * length l / 4)%nat).
Proof.
  intros Hn.
  pose proof (Nat.Div0.mul_div_le (length l) 4) as H1.
  pose proof (Nat.Div0.mul_div_le (length l) 2) as H2.
  pose proof (Nat.Div0.mul_div_le (3 * length l) 4) as H3.
  split; [|split]; apply lookup_lt_is_Some_2; lia.
Qed.

Lemma whisker_low_spec (P : float -> bool) (sorted : list float) (d : float) :
  sorted_asc sorted = true ->
  ((exists v, v ∈ sorted /\ P v = true) ->
     let w := default d (find_first P sorted) in
     w ∈ sorted /\ P w = true /\
     forall v, v ∈ sorted -> P v = true -> v = w \/ (w <=? v) = true) /\
  ((forall v, v ∈ sorted -> P v = false) -> default d (find_first P sorted) = d).
Proof.
  intros Hs. split.
  - intros [v0 [Hv0 HP0]]. simpl.
    destruct (find_first P sorted) as [w|] eqn:Hf.
    + destruct (find_first_some _ _ _ Hf) as [Hin HPw]. simpl.
      split; [done|split; [done|]]. eapply find_first_lowest; eauto.
    + exfalso. rewrite (find_first_none _ _ Hf v0 Hv0) in HP0. discriminate.
  - intros Hnone. destruct (find_first P sorted) as [w|] eqn:Hf; [|done].
    destruct (find_first_some _ _ _ Hf) as [Hin HPw].
    rewrite (Hnone w Hin) in HPw. discriminate.
Qed.

Lemma whisker_high_spec (P : float -> bool) (sorted : list float) (d : float) :
  sorted_asc sorted = true ->
  ((exists v, v ∈ sorted /\ P v = true) ->
     let w := default d (find_first P (rev sorted)) in
     w ∈ sorted /\ P w = true /\
     forall v, v ∈ sorted -> P v = true -> v = w \/ (v <=? w) = true) /\
  ((forall v, v ∈ sorted -> P v = false) -> default d (find_first P (rev sorted)) = d).
Proof.
  intros Hs. split.
  - intros [v0 [Hv0 HP0]]. simpl.
    destruct (find_first P (rev sorted)) as [w|] eqn:Hf.
    + destruct (find_first_some _ _ _ Hf) as [Hin HPw]. simpl.
      rewrite elem_of_rev in Hin.
      split; [done|split; [done|]]. eapply find_first_rev_highest; eauto.
    + exfalso. rewrite <- elem_of_rev in Hv0.
      rewrite (find_first_none _ _ Hf v0 Hv0) in HP0. discriminate.
  - intros Hnone. destruct (find_first P (rev sorted)) as [w|] eqn:Hf; [|done].
    destruct (find_first_some _ _ _ Hf) as [Hin HPw].
    rewrite elem_of_rev in Hin. rewrite (Hnone w Hin) in HPw. discriminate.
Qed.

(* ------------------------------------------------------------------ *)
(** ** Quantile plots *)

(** C1 (amended): the static renderer's QQ mapping sorts a group's values and
    pairs the [i]-th of [n] with [normal_ppf ((i + 0.5) / n)], so a single
    value gives the one point [(0, v)]; the interactive plotter instead pairs
    the [i]-th sorted value with [i / (n - 1)] ([0.5] for a single value),
    with no probit. *)
Theorem qq_plotting_positions :
  (forall (ln : float -> float) (vals : list float),
     StaticChartRenderer.qq_points ln vals =
     imap (fun i v =>
             (StaticChartRenderer.normal_ppf ln
                ((usize_as_f64 i + 0.5) / usize_as_f64 (length vals)), v))
       (sort_by_partial_cmp vals)) /\
  (forall (ln : float -> float) (v : float),
     StaticChartRenderer.qq_points ln [v] = [(0, v)]) /\
  (forall vals : list float,
     ChartPlotter.quantile_points vals =
     imap (fun i v =>
             (if (1 <? length vals)%nat
              then usize_as_f64 i / usize_as_f64 (length vals - 1) else 0.5, v))
       (sort_by_partial_cmp vals)) /\
  (forall v : float, ChartPlotter.quantile_points [v] = [(0.5, v)]).
Proof.
  split; [|split; [|split]].
  - intros ln vals. unfold StaticChartRenderer.qq_points.
    rewrite sort_by_partial_cmp_length. reflexivity.
  - intros ln v. vm_compute. reflexivity.
  - intros vals. unfold ChartPlotter.quantile_points.
    rewrite sort_by_partial_cmp_length. reflexivity.
  - intros v. reflexivity.
Qed.

(** The interactive plotter puts a single value at position [0.5], not at the
    normal score [0]. *)
Lemma plotter_single_sample_not_at_zero :
  ~ (forall v : float, ChartPlotter.quantile_points [v] = [(0, v)]).
Proof.
  intros H. specialize (H 1).
  apply (f_equal (fun l => match l with (x, _) :: _ => x =? 0 | [] => true end)) in H.
  vm_compute in H. discriminate.
Qed.

(* ------------------------------------------------------------------ *)
(** ** Box plots *)

(** C2: for an ascending sample of length [n >= 1], both box-plot copies take
    [q1 = sorted[n/4]], [median = sorted[n/2]] and [q3 = sorted[3n/4]]; with
    [iqr = q3 - q1] the low whisker is the lowest sample [>= q1 - 1.5 iqr]
    and the high whisker the highest sample [<= q3 + 1.5 iqr], defaulting to
    [q1] and [q3] when no sample qualifies; on [[1..8]] the box is
    [q1 = 3], [median = 5], [q3 = 7]. *)
Theorem box_plot_index_quartiles :
  ChartPlotter.box_spread [1; 2; 3; 4; 5; 6; 7; 8] = mk_box_spread 1 3 5 7 8 /\
  StaticChartRenderer.box_spread [1; 2; 3; 4; 5; 6; 7; 8]
    = Some (mk_box_spread 1 3 5 7 8) /\
  forall sorted : list float,
    sorted_asc sorted = true -> (1 <= length sorted)%nat ->
    exists q1 med q3 : float,
      let n := length sorted in
      let b := ChartPlotter.box_spread sorted in
      let lo := q1 - 1.5 * (q3 - q1) in
      let hi := q3 + 1.5 * (q3 - q1) in
      sorted !! (n / 4)%nat = Some q1 /\ sorted !! (n / 2)%nat = Some med /\
      sorted !! (3 * n / 4)%nat = Some q3 /\
      StaticChartRenderer.box_spread sorted = Some b /\
      quartile1 b = q1 /\ median b = med /\ quartile3 b = q3 /\
      ((exists v, v ∈ sorted /\ (lo <=? v) = true) ->
         lower_whisker b ∈ sorted /\ (lo <=? lower_whisker b) = true /\
         forall v, v ∈ sorted -> (lo <=? v) = true ->
           v = lower_whisker b \/ (lower_whisker b <=? v) = true) /\
      ((forall v, v ∈ sorted -> (lo <=? v) = false) -> lower_whisker b = q1) /\
      ((exists v, v ∈ sorted /\ (v <=? hi) = true) ->
         upper_whisker b ∈ sorted /\ (upper_whisker b <=? hi) = true /\
         forall v, v ∈ sorted -> (v <=? hi) = true ->
           v = upper_whisker b \/ (v <=? upper_whisker b) = true) /\
      ((forall v, v ∈ sorted -> (v <=? hi) = false) -> upper_whisker b = q3).
Proof.
  split; [vm_compute; reflexivity|]. split; [vm_compute; reflexivity|].
  intros sorted Hs Hn.
  destruct (lookup_quartile_indices sorted Hn) as [[q1 H1] [[med H2] [q3 H3]]].
  exists q1, med, q3. cbv zeta.
  unfold ChartPlotter.box_spread, StaticChartRenderer.box_spread. cbv zeta.
  rewrite H1, H2, H3. simpl.
  destruct (whisker_low_spec (fun v => q1 - 1.5 * (q3 - q1) <=? v) sorted q1 Hs)
    as [Hlo Hlo0].
  destruct (whisker_high_spec (fun v => v <=? q3 + 1.5 * (q3 - q1)) sorted q3 Hs)
    as [Hhi Hhi0].
  cbv zeta beta in Hlo, Hlo0, Hhi, Hhi0.
  do 7 (split; [done|]).
  split; [exact Hlo|]. split; [exact Hlo0|]. split; [exact Hhi|exact Hhi0].
Qed.

(* ------------------------------------------------------------------ *)
(** ** Percentiles *)

(** C3: [percentile] is NaN on an empty list and the element on a singleton;
    on two or more values it interpolates between [sorted[floor r]] and
    [sorted[min (ceil r) (n - 1)]] at rank [r = (p / 100) (n - 1)], by the
    fraction [r - floor r]; the median of [[1;2;3;4]] is [2.5] and of
    [[1;2;3]] is [2]. *)
Theorem percentile_linear_interpolation :
  (forall p : float, is_nan (StatsCalculator.percentile [] p) = true) /\
  (forall x p : float, StatsCalculator.percentile [x] p = x) /\
  (forall (sorted : list float) (p : float),
     (2 <= length sorted)%nat ->
     let n := length sorted in
     let r := (p / 100) * usize_as_f64 (n - 1) in
     let lo := f64_floor_as_usize r in
     let hi := Nat.min (f64_ceil_as_usize r) (n - 1) in
     let frac := r - usize_as_f64 lo in
     StatsCalculator.percentile sorted p =
       if (lo =? hi)%nat then StatsCalculator.index sorted lo
       else StatsCalculator.index sorted lo * (1 - frac)
            + StatsCalculator.index sorted hi * frac) /\
  StatsCalculator.percentile [1; 2; 3; 4] 50 = 2.5 /\
  StatsCalculator.percentile [1; 2; 3] 50 = 2.
Proof.
  split; [intros p; vm_compute; reflexivity|].
  split; [intros x p; reflexivity|].
  split.
  - intros sorted p Hn. cbv zeta. unfold StatsCalculator.percentile. cbv zeta.
    destruct (length sorted) as [|[|n']] eqn:Hl; [lia|lia|]. reflexivity.
  - split; vm_compute; reflexivity.
Qed.

(* ------------------------------------------------------------------ *)
(** ** The inverse normal CDF *)

(** C8 (amended): both copies of [normal_ppf] give exactly [0] at [0.5], but
    in double precision the approximation is neither monotone nor symmetric
    on all of [(0,1)]: it decreases from [p = 0.8474337369372327] to the next
    double, and for [p = 1e-300] the complement [1 - p] rounds to [1], where
    the sentinel ([+inf] in the plotter, [3.5] in the renderer) is returned
    while [normal_ppf p] is about [-37]. *)
Theorem probit_half_and_rounding :
  (forall ln : float -> float,
     ChartPlotter.normal_ppf ln 0.5 = 0 /\
     StaticChartRenderer.normal_ppf ln 0.5 = 0 /\
     (ChartPlotter.normal_ppf ln (next_up 0.8474337369372327)
        <? ChartPlotter.normal_ppf ln 0.8474337369372327) = true /\
     (StaticChartRenderer.normal_ppf ln (next_up 0.8474337369372327)
        <? StaticChartRenderer.normal_ppf ln 0.8474337369372327) = true /\
     1 - 1e-300 = 1 /\
     ChartPlotter.normal_ppf ln (1 - 1e-300) = infinity /\
     StaticChartRenderer.normal_ppf ln (1 - 1e-300) = 3.5) /\
  (ChartPlotter.normal_ppf LibModels.ln 1e-300 <? -37) = true /\
  (StaticChartRenderer.normal_ppf LibModels.ln 1e-300 <? -37) = true.
Proof.
  split; [|split; vm_compute; reflexivity].
  intros ln. repeat split; vm_compute; reflexivity.
Qed.

(** Monotonicity fails between two adjacent doubles in the central region,
    where [ln] is not used. *)
Lemma probit_not_monotone_in_doubles :
  ~ (forall (ln : float -> float) (p1 p2 : float),
       (0 <? p1) = true -> (p1 <? p2) = true -> (p2 <? 1) = true ->
       (ChartPlotter.normal_ppf ln p1 <=? ChartPlotter.normal_ppf ln p2) = true).
Proof.
  intros H.
  specialize (H LibModels.ln 0.8474337369372327 (next_up 0.8474337369372327)).
  vm_compute in H. discriminate (H eq_refl eq_refl eq_refl).
Qed.

(* ------------------------------------------------------------------ *)
(** ** [n as f64] on integers

    SpecFloat's rounding of an integer mantissa, followed far enough to show
    that [n as f64 < 2.0] is false for every [n >= 2]. *)

Open Scope Z_scope.

Lemma digits2_pos_iter_xO (m k : positive) :
  digits2_pos (Pos.iter xO m k) = (digits2_pos m + k)%positive.
Proof.
  induction k as [|k IH] using Pos.peano_ind.
  - simpl. lia.
  - rewrite Pos.iter_succ. simpl. rewrite IH. lia.
Qed.

Lemma digits2_pos_bounds (m : positive) :
  (2 ^ (Zpos (digits2_pos m) - 1) <= Zpos m < 2 ^ Zpos (digits2_pos m))%Z.
Proof.
  induction m as [m IH|m IH|]; [| |simpl; lia];
    [change (digits2_pos m~1) with (Pos.succ (digits2_pos m));
     rewrite (Pos2Z.inj_xI m)
    |change (digits2_pos m~0) with (Pos.succ (digits2_pos m));
     rewrite (Pos2Z.inj_xO m)];
    rewrite Pos2Z.inj_succ;
    replace (Z.succ (Zpos (digits2_pos m)) - 1)%Z with (Zpos (digits2_pos m)) by lia;
    rewrite Z.pow_succ_r by lia;
    assert (H2 : (2 ^ Zpos (digits2_pos m) = 2 * 2 ^ (Zpos (digits2_pos m) - 1))%Z)
      by (rewrite <- Z.pow_succ_r by lia; f_equal; lia).

  all: lia.
Qed.

Lemma iter_xO_value (m k : positive) :
  Zpos (Pos.iter xO m k) = (Zpos m * 2 ^ Zpos k)%Z.
Proof.
  induction k as [|k IH] using Pos.peano_ind.
  - simpl. lia.
  - rewrite Pos.iter_succ, Pos2Z.inj_xO, IH, Pos2Z.inj_succ, Z.pow_succ_r by lia. lia.
Qed.

Lemma binary_round_aux_exact (mz : positive) (ez : Z) :
  fexp prec emax (Zpos (digits2_pos mz) + ez) = ez ->
  (ez <= emax - prec)%Z ->
  binary_round_aux prec emax false (Zpos mz) ez loc_Exact = S754_finite false mz ez.
Proof.
  intros Hf He.
  unfold binary_round_aux, shr_fexp. cbn [Zdigits2 shr_record_of_loc].
  rewrite Hf, Z.sub_diag. cbn [shr shr_m loc_of_shr_record round_nearest_even Zdigits2].
  rewrite Hf, Z.sub_diag. cbn [shr shr_m].
  apply Z.leb_le in He. rewrite He. reflexivity.
Qed.

(** An integer of at most 53 bits is represented exactly. *)
Lemma binary_normalize_small (m : positive) :
  (Zpos m < 2 ^ 53)%Z ->
  exists mz : positive,
    binary_normalize prec emax (Zpos m) 0 false
      = S754_finite false mz (Zpos (digits2_pos m) - 53) /\
    Zpos mz = (Zpos m * 2 ^ (53 - Zpos (digits2_pos m)))%Z /\
    digits2_pos mz = 53%positive.
Proof.
  intros Hm.
  pose proof (digits2_pos_bounds m) as [Hlo Hhi].
  set (d := digits2_pos m) in *.
  assert (Hd : (Zpos d <= 53)%Z).
  { destruct (Z.le_gt_cases (Zpos d) 53) as [|Hgt]; [assumption|].
    assert (2 ^ 53 <= 2 ^ (Zpos d - 1))%Z by (apply Z.pow_le_mono_r; lia). lia. }
  assert (Hfx : fexp prec emax (Zpos d + 0) = (Zpos d - 53)%Z)
    by (unfold fexp, emin, prec, emax; lia).
  unfold binary_normalize, binary_round. fold d. rewrite Hfx. unfold shl_align.
  destruct (Z.eq_dec (Zpos d) 53) as [Heq|Hne].
  - exists m. replace (Zpos d - 53 - 0)%Z with 0%Z by lia.
    replace (Zpos d - 53)%Z with 0%Z by lia.
    rewrite binary_round_aux_exact.
    + split; [reflexivity|]. split; [|lia]. replace (53 - Zpos d)%Z with 0%Z by lia. lia.
    + fold d. rewrite Hfx. lia.
    + unfold emax, prec. lia.
  - set (k := Z.to_pos (53 - Zpos d)).
    assert (Hk : Zpos k = (53 - Zpos d)%Z) by (unfold k; rewrite Z2Pos.id; lia).
    replace (Zpos d - 53 - 0)%Z with (Zneg k) by lia.
    exists (Pos.iter xO m k).
    assert (Hdk : digits2_pos (Pos.iter xO m k) = 53%positive).
    { rewrite digits2_pos_iter_xO. fold d. lia. }
    rewrite binary_round_aux_exact.
    + split; [reflexivity|]. split; [|exact Hdk]. rewrite iter_xO_value, Hk. reflexivity.
    + rewrite Hdk. unfold fexp, emin, prec, emax. lia.
    + unfold emax, prec. lia.
Qed.

Lemma shr_1_m (mrs : shr_record) :
  (0 <= shr_m mrs)%Z -> shr_m (shr_1 mrs) = (shr_m mrs / 2)%Z.
Proof.
  destruct mrs as [m r s]. cbn [shr_m]. intros Hm.
  destruct m as [|[p|p|]|p]; cbn [shr_1 shr_m]; [reflexivity| | |reflexivity|lia].
  - rewrite (Pos2Z.inj_xI p). rewrite Z.add_comm, Z.mul_comm, Z.div_add by lia. reflexivity.
  - rewrite (Pos2Z.inj_xO p). rewrite Z.mul_comm, Z.div_mul by lia. reflexivity.
Qed.

Lemma iter_pos_shr_1_m (p : positive) (mrs : shr_record) :
  (0 <= shr_m mrs)%Z ->
  shr_m (SpecFloat.iter_pos shr_1 p mrs) = (shr_m mrs / 2 ^ Zpos p)%Z.
Proof.
  revert mrs. induction p as [p IH|p IH|]; intros mrs Hm; cbn [SpecFloat.iter_pos];
    [assert (Hp : (0 < 2 ^ Zpos p)%Z) by (apply Z.pow_pos_nonneg; lia)..|].
  - assert (H1 : (0 <= shr_m (shr_1 mrs))%Z) by (rewrite shr_1_m; [apply Z.div_pos|]; lia).
    assert (H2 : (0 <= shr_m (SpecFloat.iter_pos shr_1 p (shr_1 mrs)))%Z)
      by (rewrite IH by exact H1; apply Z.div_pos; [exact H1|apply Z.pow_pos_nonneg; lia]).
    rewrite IH by exact H2. rewrite IH by exact H1. rewrite shr_1_m by exact Hm.
    rewrite !Z.div_div by nia.
    f_equal. rewrite (Pos2Z.inj_xI p).
    replace (2 * Zpos p + 1)%Z with (Zpos p + Zpos p + 1)%Z by lia.
    rewrite !Z.pow_add_r by lia. ring.
  - assert (H2 : (0 <= shr_m (SpecFloat.iter_pos shr_1 p mrs))%Z)
      by (rewrite IH by exact Hm; apply Z.div_pos; [exact Hm|apply Z.pow_pos_nonneg; lia]).
    rewrite IH by exact H2. rewrite IH by exact Hm.
    rewrite Z.div_div by nia.
    f_equal. rewrite (Pos2Z.inj_xO p).
    replace (2 * Zpos p)%Z with (Zpos p + Zpos p)%Z by lia.
    rewrite !Z.pow_add_r by lia. ring.
  - apply shr_1_m, Hm.
Qed.

Lemma digits2_pos_unique (p : positive) (k : Z) :
  (1 <= k)%Z -> (2 ^ (k - 1) <= Zpos p < 2 ^ k)%Z -> Zpos (digits2_pos p) = k.
Proof.
  intros Hk [Hl Hh]. pose proof (digits2_pos_bounds p) as [Hl' Hh'].
  pose proof (Pos2Z.is_pos (digits2_pos p)).
  destruct (Z.lt_trichotomy (Zpos (digits2_pos p)) k) as [Hlt|[Heq|Hgt]]; [|exact Heq|].
  - assert (2 ^ Zpos (digits2_pos p) <= 2 ^ (k - 1))%Z by (apply Z.pow_le_mono_r; lia). lia.
  - assert (2 ^ k <= 2 ^ (Zpos (digits2_pos p) - 1))%Z by (apply Z.pow_le_mono_r; lia). lia.
Qed.

Lemma round_nearest_even_bounds (x : Z) (l : location) :
  (x <= round_nearest_even x l <= x + 1)%Z.
Proof. destruct l as [|[]]; simpl; try destruct (Z.even x); lia. Qed.

(** An integer of more than 53 bits rounds to a normal float of exponent at
    least 1, or overflows. *)
Lemma binary_normalize_large (m : positive) :
  (2 ^ 53 <= Zpos m)%Z ->
  binary_normalize prec emax (Zpos m) 0 false = S754_infinity false \/
  exists (mz : positive) (ez : Z),
    binary_normalize prec emax (Zpos m) 0 false = S754_finite false mz ez /\
    digits2_pos mz = 53%positive /\ (1 <= ez <= emax - prec)%Z.
Proof.
  intros Hm.
  pose proof (digits2_pos_bounds m) as [Hlo Hhi].
  set (d := digits2_pos m) in *.
  assert (Hd : (54 <= Zpos d)%Z).
  { destruct (Z.le_gt_cases 54 (Zpos d)) as [|Hlt]; [assumption|].
    assert (2 ^ Zpos d <= 2 ^ 53)%Z by (apply Z.pow_le_mono_r; lia). lia. }
  set (k := Z.to_pos (Zpos d - 53)).
  assert (Hk : Zpos k = (Zpos d - 53)%Z) by (unfold k; rewrite Z2Pos.id; lia).
  assert (Hfx : fexp prec emax (Zpos d + 0) = (Zpos d - 53)%Z)
    by (unfold fexp, emin, prec, emax; lia).
  assert (Hpk : (0 < 2 ^ Zpos k)%Z) by (apply Z.pow_pos_nonneg; lia).
  unfold binary_normalize, binary_round. fold d. rewrite Hfx. unfold shl_align.
  replace (Zpos d - 53 - 0)%Z with (Zpos k) by lia.
  unfold binary_round_aux.
  assert (H1 : shr_fexp prec emax (Zpos m) 0 loc_Exact
               = (SpecFloat.iter_pos shr_1 k (Build_shr_record (Zpos m) false false), Zpos k)).
  { unfold shr_fexp. cbn [Zdigits2 shr_record_of_loc]. fold d. rewrite Hfx.
    replace (Zpos d - 53 - 0)%Z with (Zpos k) by lia. reflexivity. }
  rewrite H1.
  set (mrs1 := SpecFloat.iter_pos shr_1 k (Build_shr_record (Zpos m) false false)).
  assert (Hs : shr_m mrs1 = (Zpos m / 2 ^ Zpos k)%Z)
    by (unfold mrs1; rewrite iter_pos_shr_1_m; simpl; lia).
  assert (Hsb : (2 ^ 52 <= shr_m mrs1 < 2 ^ 53)%Z).
  { rewrite Hs.
    assert (E1 : (2 ^ (Zpos d - 1) = 2 ^ 52 * 2 ^ Zpos k)%Z)
      by (rewrite <- Z.pow_add_r by lia; f_equal; lia).
    assert (E2 : (2 ^ Zpos d = 2 ^ 53 * 2 ^ Zpos k)%Z)
      by (rewrite <- Z.pow_add_r by lia; f_equal; lia).
    split.
    - rewrite <- (Z.div_mul (2 ^ 52) (2 ^ Zpos k)) by lia.
      apply Z.div_le_mono; lia.
    - apply Z.div_lt_upper_bound; lia. }
  pose proof (round_nearest_even_bounds (shr_m mrs1) (loc_of_shr_record mrs1)) as Hr.
  destruct (round_nearest_even (shr_m mrs1) (loc_of_shr_record mrs1)) as [|rp|rp] eqn:Hre;
    [lia| |lia].
  destruct (Z.eq_dec (Zpos rp) (2 ^ 53)) as [Hr53|Hr53].
  - (* rounding up to 2^53: one more shift *)
    assert (Hrp : rp = 9007199254740992%positive) by (injection Hr53; auto).
    subst rp.
    assert (H2 : shr_fexp prec emax (Zpos 9007199254740992) (Zpos k) loc_Exact
                 = (Build_shr_record (Zpos 4503599627370496) false false, (Zpos k + 1)%Z)).
    { unfold shr_fexp.
      replace (Zdigits2 (Zpos 9007199254740992)) with 54%Z by (vm_compute; reflexivity).
      replace (fexp prec emax (54 + Zpos k) - Zpos k)%Z with 1%Z
        by (unfold fexp, emin, prec, emax; lia).
      reflexivity. }
    rewrite H2. cbn [shr_m].
    destruct (Z.leb_spec (Zpos k + 1) (emax - prec)) as [Hle|Hgt].
    + right. exists 4503599627370496%positive, (Zpos k + 1)%Z.
      split; [reflexivity|]. split; [vm_compute; reflexivity|lia].
    + left. reflexivity.
  - assert (Hdr : Zpos (digits2_pos rp) = 53%Z) by (apply digits2_pos_unique; lia).
    assert (H2 : shr_fexp prec emax (Zpos rp) (Zpos k) loc_Exact
                 = (Build_shr_record (Zpos rp) false false, Zpos k)).
    { unfold shr_fexp. cbn [Zdigits2]. rewrite Hdr.
      replace (fexp prec emax (53 + Zpos k) - Zpos k)%Z with 0%Z
        by (unfold fexp, emin, prec, emax; lia).
      reflexivity. }
    rewrite H2. cbn [shr_m].
    destruct (Z.leb_spec (Zpos k) (emax - prec)) as [Hle|Hgt].
    + right. exists rp, (Zpos k).
      split; [reflexivity|]. split; [lia|lia].
    + left. reflexivity.
Qed.

Lemma compare_cont_Eq (a b : positive) :
  PosDef.Pos.compare_cont Eq a b = Pos.compare a b.
Proof. reflexivity. Qed.

Lemma usize_as_f64_not_lt_2_small (n : nat) :
  (2 <= n)%nat -> (Z.of_nat n < 2 ^ 53)%Z -> (usize_as_f64 n <? 2)%float = false.
Proof.
  intros H2 H53. unfold usize_as_f64.
  destruct (Z.of_nat n) as [|m|m] eqn:Hz; [lia| |lia].
  pose proof (digits2_pos_bounds m) as [Hlo Hhi].
  destruct (binary_normalize_small m H53) as [mz [Hb [Hmz Hdmz]]].
  pose proof (Pos2Z.is_pos (digits2_pos m)) as Hdpos.
  assert (Hd53 : (Zpos (digits2_pos m) <= 53)%Z).
  { destruct (Z.le_gt_cases (Zpos (digits2_pos m)) 53) as [|Hgt]; [assumption|].
    assert (2 ^ 53 <= 2 ^ (Zpos (digits2_pos m) - 1))%Z
      by (apply Z.pow_le_mono_r; lia). lia. }
  rewrite Hb, ltb_spec, Prim2SF_SF2Prim.
  2:{ unfold valid_binary, bounded, canonical_mantissa. rewrite Hdmz.
      apply andb_true_intro. split; [apply Z.eqb_eq|apply Z.leb_le];
      unfold fexp, emin, prec, emax; lia. }
  replace (Prim2SF 2%float) with (S754_finite false 4503599627370496 (-51))
    by (vm_compute; reflexivity).
  set (d := digits2_pos m) in *.
  assert (Hd2 : (2 <= Zpos d)%Z).
  { destruct (Z.le_gt_cases 2 (Zpos d)) as [|Hlt]; [assumption|].
    assert (Zpos d = 1%Z) as Hd1 by lia. rewrite Hd1, Z.pow_1_r in Hhi. lia. }
  unfold SFltb, SFcompare.
  destruct (Z.compare_spec (Zpos d - 53) (-51)) as [Heq|Hlt|Hgt]; [|lia|reflexivity].
  remember 4503599627370496%positive as P eqn:HP.
  rewrite compare_cont_Eq.
  destruct (Pos.compare_spec mz P) as [|Hlt|]; [reflexivity| |reflexivity].
  exfalso. replace (53 - Zpos d)%Z with 51%Z in Hmz by lia.
  subst P. apply Pos2Z.pos_lt_pos in Hlt. clear - Hmz Hz H2 Hlt. lia.
Qed.

(** [n as f64 < 2.0] is false for every [n >= 2]. *)
Lemma usize_as_f64_not_lt_2 (n : nat) :
  (2 <= n)%nat -> (usize_as_f64 n <? 2)%float = false.
Proof.
  intros H2.
  destruct (Z.lt_ge_cases (Z.of_nat n) (2 ^ 53)) as [Hs|Hl].
  { apply usize_as_f64_not_lt_2_small; assumption. }
  unfold usize_as_f64.
  destruct (Z.of_nat n) as [|m|m] eqn:Hz; [lia| |lia].
  rewrite ltb_spec.
  replace (Prim2SF 2%float) with (S754_finite false 4503599627370496 (-51))
    by (vm_compute; reflexivity).
  destruct (binary_normalize_large m Hl) as [Hinf|[mz [ez [Hb [Hd He]]]]].
  - rewrite Hinf. reflexivity.
  - rewrite Hb, Prim2SF_SF2Prim.
    + unfold SFltb, SFcompare.
      destruct (Z.compare_spec ez (-51)); [lia|lia|reflexivity].
    + unfold valid_binary, bounded, canonical_mantissa. rewrite Hd.
      apply andb_true_intro. split; [apply Z.eqb_eq|apply Z.leb_le];
        unfold fexp, emin, prec, emax in *; lia.
Qed.

Open Scope float_scope.

(* ------------------------------------------------------------------ *)
(** ** Welch's t-test *)

Lemma usize_as_f64_lt_2 (n : nat) : (n < 2)%nat -> (usize_as_f64 n <? 2) = true.
Proof. intros H. destruct n as [|[|k]]; [reflexivity|reflexivity|lia]. Qed.

(** C4: [perform_ttest] returns [(NaN, false)] when a sample has fewer than
    two values, exactly [(1.0, false)] when the standard error is zero, and
    [(NaN, false)] when the Student's-t distribution for the Welch degrees of
    freedom cannot be built; no error escapes in any of these cases. *)
Theorem ttest_degenerate_cases :
  forall (StudentsT : Type)
         (students_t_new : float -> float -> float -> option StudentsT)
         (cdf : StudentsT -> float -> float) (g c : list float),
    ((length g < 2)%nat \/ (length c < 2)%nat ->
       StatsCalculator.perform_ttest StudentsT students_t_new cdf g c = (nan, false)) /\
    ((2 <= length g)%nat -> (2 <= length c)%nat ->
       (StatsCalculator.welch_se g c =? 0) = true ->
       StatsCalculator.perform_ttest StudentsT students_t_new cdf g c = (1, false)) /\
    ((2 <= length g)%nat -> (2 <= length c)%nat ->
       (StatsCalculator.welch_se g c =? 0) = false ->
       students_t_new 0 1 (StatsCalculator.welch_df g c) = None ->
       StatsCalculator.perform_ttest StudentsT students_t_new cdf g c = (nan, false)).
Proof.
  intros StudentsT students_t_new cdf g c.
  unfold StatsCalculator.perform_ttest, StatsCalculator.welch_se,
    StatsCalculator.welch_df.
  cbv zeta.
  split; [|split].
  - intros [Hg|Hc].
    + rewrite (usize_as_f64_lt_2 _ Hg). reflexivity.
    + rewrite (usize_as_f64_lt_2 _ Hc), orb_true_r. reflexivity.
  - intros Hg Hc Hse.
    rewrite (usize_as_f64_not_lt_2 _ Hg), (usize_as_f64_not_lt_2 _ Hc).
    cbn [orb]. rewrite Hse. reflexivity.
  - intros Hg Hc Hse Hnone.
    rewrite (usize_as_f64_not_lt_2 _ Hg), (usize_as_f64_not_lt_2 _ Hc).
    cbn [orb]. rewrite Hse, Hnone. reflexivity.
Qed.

Lemma ttest_degenerate_cases_witness :
  StatsCalculator.perform_ttest LibModels.StudentsT LibModels.students_t_new
    LibModels.students_t_cdf [1] [1; 2] = (nan, false) /\
  StatsCalculator.perform_ttest LibModels.StudentsT LibModels.students_t_new
    LibModels.students_t_cdf [1; 1] [1; 1] = (1, false) /\
  StatsCalculator.perform_ttest LibModels.StudentsT LibModels.students_t_new
    LibModels.students_t_cdf [1e300; -1e300] [1; 2] = (nan, false).
Proof.
  split; [|split].
  - apply (proj1 (ttest_degenerate_cases LibModels.StudentsT LibModels.students_t_new
      LibModels.students_t_cdf [1] [1; 2])).
    left. simpl. lia.
  - apply (proj1 (proj2 (ttest_degenerate_cases LibModels.StudentsT
      LibModels.students_t_new LibModels.students_t_cdf [1; 1] [1; 1])));
      [simpl; lia|simpl; lia|vm_compute; reflexivity].
  - apply (proj2 (proj2 (ttest_degenerate_cases LibModels.StudentsT
      LibModels.students_t_new LibModels.students_t_cdf [1e300; -1e300] [1; 2])));
      [simpl; lia|simpl; lia|vm_compute; reflexivity|vm_compute; reflexivity].
Defined.

(* ------------------------------------------------------------------ *)
(** ** NaN propagation *)

Lemma is_nan_eq_nan (x : float) : is_nan x = true -> x = nan.
Proof. intros H. rewrite <- (SF2Prim_Prim2SF x). unfold Prim2SF. rewrite H. reflexivity. Qed.

Lemma sub_nan_r (x : float) : x - nan = nan.
Proof.
  rewrite <- (SF2Prim_Prim2SF (x - nan)), sub_spec.
  change (Prim2SF nan) with S754_nan. destruct (Prim2SF x); reflexivity.
Qed.

Lemma add_nan_r (x : float) : x + nan = nan.
Proof.
  rewrite <- (SF2Prim_Prim2SF (x + nan)), add_spec.
  change (Prim2SF nan) with S754_nan. destruct (Prim2SF x); reflexivity.
Qed.

Lemma div_nan_l (y : float) : nan / y = nan.
Proof.
  rewrite <- (SF2Prim_Prim2SF (nan / y)), div_spec.
  change (Prim2SF nan) with S754_nan. destruct (Prim2SF y); reflexivity.
Qed.

Lemma f64_sum_all_nan (l : list float) (acc : float) :
  l <> [] -> Forall (fun x => x = nan) l -> fold_left (fun a x => a + x) l acc = nan.
Proof.
  revert acc. induction l as [|x t IH]; intros acc Hne Hall; [done|].
  inversion Hall as [|? ? Hx Ht]; subst. simpl.
  destruct t as [|y t']; simpl; [apply add_nan_r|].
  apply IH; [done|exact Ht].
Qed.

(** A positive standard deviation comes with a mean that is not NaN: a NaN
    mean makes every squared deviation, hence the variance, NaN. *)
Lemma descriptive_std_pos_mean (values : list float) :
  (0 <? StatsCalculator.std (StatsCalculator.compute_descriptive_stats values)) = true ->
  is_nan (StatsCalculator.mean (StatsCalculator.compute_descriptive_stats values)) = false.
Proof.
  unfold StatsCalculator.compute_descriptive_stats.
  destruct (length values =? 0)%nat eqn:Hn; [intros H; vm_compute in H; discriminate|].
  cbv zeta. cbn [StatsCalculator.std StatsCalculator.mean].
  set (mu := f64_sum values / usize_as_f64 (length values)).
  destruct (is_nan mu) eqn:Hmu; [|done].
  apply is_nan_eq_nan in Hmu. rewrite Hmu.
  destruct (1 <? length values)%nat eqn:H1; [|intros H; vm_compute in H; discriminate].
  unfold f64_sum. rewrite f64_sum_all_nan.
  - rewrite div_nan_l. intros H; vm_compute in H; discriminate.
  - destruct values; [done|]. simpl. done.
  - apply Forall_forall. intros y Hy. apply list_elem_of_In in Hy.
    apply in_map_iff in Hy as [x [<- _]]. unfold powi2. rewrite sub_nan_r. reflexivity.
Qed.

(* ------------------------------------------------------------------ *)
(** ** The per-data-type statistics *)

Module StatsProperties.
Import StatsCalculator.

Section Lookup.
Context (StudentsT : Type)
        (students_t_new : float -> float -> float -> option StudentsT)
        (cdf : StudentsT -> float -> float)
        (unique : list string -> list string).

(** The loop over the groups inserts, for every name other than the control,
    a value that depends on the name only. *)
Lemma fold_groups_lookup (entry : string -> GroupStats) (ctrl : string)
    (gs : list string) (m : gmap string GroupStats) (k : string) :
  foldl (fun gsm name =>
           if bool_decide (name = ctrl) then gsm else <[name := entry name]> gsm)
    m gs !! k =
  if bool_decide (k <> ctrl /\ k ∈ gs) then Some (entry k) else m !! k.
Proof.
  revert m. induction gs as [|x t IH]; intros m; simpl.
  - rewrite bool_decide_false; [done|]. intros [_ Hin]. inversion Hin.
  - rewrite IH.
    destruct (decide (k = ctrl)) as [->|Hk].
    + rewrite (bool_decide_false (ctrl <> ctrl /\ _)) by tauto.
      rewrite (bool_decide_false (ctrl <> ctrl /\ _)) by tauto.
      destruct (decide (x = ctrl)) as [Hx|Hx].
      * rewrite bool_decide_true by done. done.
      * rewrite bool_decide_false by done. rewrite lookup_insert_ne; congruence.
    + destruct (decide (k ∈ t)) as [Ht|Ht].
      * rewrite (bool_decide_true (k <> ctrl /\ k ∈ t)) by done.
        rewrite (bool_decide_true (k <> ctrl /\ k ∈ x :: t)) by set_solver. done.
      * rewrite (bool_decide_false (k <> ctrl /\ k ∈ t)) by tauto.
        destruct (decide (k = x)) as [->|Hkx].
        -- rewrite (bool_decide_true (x <> ctrl /\ x ∈ x :: t)) by set_solver.
           rewrite (bool_decide_false (x = ctrl)) by done. apply lookup_insert_eq.
        -- rewrite (bool_decide_false (k <> ctrl /\ k ∈ x :: t)) by set_solver.
           destruct (decide (x = ctrl)) as [Hx|Hx].
           ++ rewrite bool_decide_true by done. done.
           ++ rewrite bool_decide_false by done. rewrite lookup_insert_ne; congruence.
Qed.

(** Where [compute_data_type_stats] puts each entry: the control statistics
    under the control name, the loop's entry under every other group name,
    nothing elsewhere. *)
Lemma data_type_stats_lookup (df : list Row) (dt ctrl k : string) :
  let type_df := filter (fun r => row_data_type r = dt) df in
  let cv := get_values_for_group type_df ctrl in
  let cs := set_group_name ctrl (compute_descriptive_stats cv) in
  let groups := map (fun v => trim_matches_quote (anyvalue_to_string v))
                  (unique (map row_group type_df)) in
  group_stats (compute_data_type_stats StudentsT students_t_new cdf unique df dt ctrl) !! k
  = if bool_decide (k = ctrl) then Some cs
    else if bool_decide (k ∈ groups)
    then Some (group_entry StudentsT students_t_new cdf type_df cv (std cs) (mean cs) k)
    else None.
Proof.
  cbv zeta. unfold compute_data_type_stats. cbn [group_stats].
  rewrite fold_groups_lookup.
  destruct (decide (k = ctrl)) as [->|Hk].
  - rewrite (bool_decide_false (ctrl <> ctrl /\ _)) by tauto.
    rewrite (bool_decide_true (ctrl = ctrl)) by done. apply lookup_insert_eq.
  - rewrite (bool_decide_false (k = ctrl)) by done.
    destruct (decide (k ∈ map (fun v => trim_matches_quote (anyvalue_to_string v))
                        (unique (map row_group (filter (fun r => row_data_type r = dt) df)))))
      as [Hin|Hin].
    + rewrite (bool_decide_true (k <> ctrl /\ _)) by tauto.
      rewrite (bool_decide_true (k ∈ _)) by done. done.
    + rewrite (bool_decide_false (k <> ctrl /\ _)) by tauto.
      rewrite (bool_decide_false (k ∈ _)) by done.
      rewrite lookup_insert_ne by congruence. apply lookup_empty.
Qed.
End Lookup.


Lemma descriptive_not_significant (values : list float) :
  is_significant (compute_descriptive_stats values) = false /\
  p_value (compute_descriptive_stats values) = None.
Proof.
  unfold compute_descriptive_stats. destruct (length values =? 0)%nat; done.
Qed.

Lemma ttest_significant_p (StudentsT : Type)
    (students_t_new : float -> float -> float -> option StudentsT)
    (cdf : StudentsT -> float -> float) (g c : list float) :
  snd (perform_ttest StudentsT students_t_new cdf g c) = true ->
  (fst (perform_ttest StudentsT students_t_new cdf g c) <=? SIGNIFICANCE_THRESHOLD) = true.
Proof.
  unfold perform_ttest. cbv zeta.
  repeat case_match; simpl; congruence.
Qed.

Lemma group_entry_significant (StudentsT : Type)
    (students_t_new : float -> float -> float -> option StudentsT)
    (cdf : StudentsT -> float -> float) (type_df : list Row)
    (cv : list float) (cstd cmean : float) (name : string) :
  let gs := group_entry StudentsT students_t_new cdf type_df cv cstd cmean name in
  is_significant gs = true ->
  exists p, p_value gs = Some p /\ (p <=? SIGNIFICANCE_THRESHOLD) = true.
Proof.
  cbv zeta. unfold group_entry. cbv zeta.
  destruct (negb (bool_decide (cv = []))).
  - destruct (perform_ttest StudentsT students_t_new cdf
                (get_values_for_group type_df name) cv) as [pv sig] eqn:Ht.
    cbn [is_significant p_value set_ttest]. intros ->. exists pv. split; [done|].
    pose proof (ttest_significant_p StudentsT students_t_new cdf
                  (get_values_for_group type_df name) cv) as Hp.
    rewrite Ht in Hp. apply Hp. reflexivity.
  - destruct ((0 <? cstd) && negb (is_nan cmean));
      cbn [is_significant set_std_diff set_group_name];
      rewrite (proj1 (descriptive_not_significant _)); discriminate.
Qed.

(** C6: every [GroupStats] the engine produces is significant only with a
    p-value [<= 0.05]: [compute_descriptive_stats] never marks significance,
    [perform_ttest] flags significance only with a p-value [<= 0.05], and
    every entry of [compute_data_type_stats] satisfies the invariant. *)
Theorem significant_implies_small_p_value :
  (forall values : list float,
     is_significant (compute_descriptive_stats values) = false) /\
  (forall (StudentsT : Type)
          (students_t_new : float -> float -> float -> option StudentsT)
          (cdf : StudentsT -> float -> float) (g c : list float),
     snd (perform_ttest StudentsT students_t_new cdf g c) = true ->
     (fst (perform_ttest StudentsT students_t_new cdf g c) <=? 0.05) = true) /\
  (forall (StudentsT : Type)
          (students_t_new : float -> float -> float -> option StudentsT)
          (cdf : StudentsT -> float -> float)
          (unique : list string -> list string)
          (df : list Row) (dt ctrl name : string) (gs : GroupStats),
     group_stats (compute_data_type_stats StudentsT students_t_new cdf unique df dt ctrl)
       !! name = Some gs ->
     is_significant gs = true ->
     exists p, p_value gs = Some p /\ (p <=? 0.05) = true).
Proof.
  split; [intros; apply descriptive_not_significant|].
  split; [intros; apply ttest_significant_p; assumption|].
  intros StudentsT students_t_new cdf unique df dt ctrl name gs Hl Hs.
  rewrite data_type_stats_lookup in Hl. cbv zeta in Hl.
  destruct (decide (name = ctrl)) as [->|Hne].
  - rewrite bool_decide_true in Hl by done. injection Hl as <-.
    cbn [is_significant set_group_name] in Hs.
    rewrite (proj1 (descriptive_not_significant _)) in Hs. discriminate.
  - rewrite bool_decide_false in Hl by done.
    case_match; [|discriminate]. injection Hl as <-.
    apply group_entry_significant, Hs.
Qed.

Lemma descriptive_no_std_diff (values : list float) :
  std_diff_from_control (compute_descriptive_stats values) = None.
Proof.
  unfold compute_descriptive_stats. destruct (length values =? 0)%nat; done.
Qed.

(** The entry of a non-control group carries the standardised difference
    exactly under the loop's guard on the control's std and mean; the
    t-test update leaves it, and the mean, unchanged. *)
Lemma group_entry_std_diff (StudentsT : Type)
    (students_t_new : float -> float -> float -> option StudentsT)
    (cdf : StudentsT -> float -> float) (type_df : list Row)
    (cv : list float) (cstd cmean : float) (name : string) :
  let gs := group_entry StudentsT students_t_new cdf type_df cv cstd cmean name in
  std_diff_from_control gs =
  if (0 <? cstd) && negb (is_nan cmean) then Some ((mean gs - cmean) / cstd) else None.
Proof.
  cbv zeta. unfold group_entry. cbv zeta.
  destruct ((0 <? cstd) && negb (is_nan cmean)) eqn:Hc;
    destruct (negb (bool_decide (cv = [])));
    try destruct (perform_ttest StudentsT students_t_new cdf _ cv);
    cbn [set_ttest set_std_diff set_group_name std_diff_from_control];
    rewrite ?descriptive_no_std_diff; reflexivity.
Qed.

Lemma nan_not_pos (x : float) : is_nan x = true -> (0 <? x) = false.
Proof. intros H. apply is_nan_eq_nan in H. subst x. reflexivity. Qed.

(** For descriptive statistics, the guard [0 < std && !mean.is_nan()] is
    the same as [0 < std && !std.is_nan()]. *)
Lemma control_guard_std (values : list float) :
  let c := compute_descriptive_stats values in
  (0 <? std c) && negb (is_nan (mean c)) = (0 <? std c) && negb (is_nan (std c)).
Proof.
  cbv zeta.
  destruct (0 <? std (compute_descriptive_stats values)) eqn:H; [|reflexivity].
  rewrite (descriptive_std_pos_mean values H).
  destruct (is_nan (std (compute_descriptive_stats values))) eqn:Hn; [|reflexivity].
  rewrite (nan_not_pos _ Hn) in H. discriminate.
Qed.

(** C7: for every non-control group of a computed [DataTypeStats], with [cs]
    the control's entry, [std_diff_from_control] is
    [Some ((mean - mean cs) / std cs)] when [std cs > 0] and [std cs] is not
    NaN, and [None] otherwise. *)
Theorem std_diff_from_control_spec (StudentsT : Type)
    (students_t_new : float -> float -> float -> option StudentsT)
    (cdf : StudentsT -> float -> float) (unique : list string -> list string)
    (df : list Row) (dt ctrl name : string) (gs : GroupStats) :
  name <> ctrl ->
  group_stats (compute_data_type_stats StudentsT students_t_new cdf unique df dt ctrl)
    !! name = Some gs ->
  exists cs,
    group_stats (compute_data_type_stats StudentsT students_t_new cdf unique df dt ctrl)
      !! ctrl = Some cs /\
    std_diff_from_control gs =
      if (0 <? std cs) && negb (is_nan (std cs))
      then Some ((mean gs - mean cs) / std cs) else None.
Proof.
  intros Hne Hl.
  rewrite data_type_stats_lookup in Hl. cbv zeta in Hl.
  rewrite bool_decide_false in Hl by done.
  case_match; [|discriminate]. injection Hl as <-.
  eexists. split.
  { rewrite data_type_stats_lookup. cbv zeta.
    rewrite bool_decide_true by done. reflexivity. }
  rewrite group_entry_std_diff. cbv zeta.
  rewrite control_guard_std. reflexivity.
Qed.

Lemma no_rows_no_values (df : list Row) (dt ctrl : string) :
  (forall r, r ∈ df -> row_data_type r = dt -> row_group r <> ctrl) ->
  get_values_for_group (filter (fun r => row_data_type r = dt) df) ctrl = [].
Proof.
  unfold get_values_for_group.
  induction df as [|r t IH]; intros H; [done|].
  rewrite filter_cons. case_decide as Hd.
  - rewrite filter_cons. rewrite decide_False.
    + apply IH. intros r' Hr'. apply H. by apply list_elem_of_further.
    + apply H; [apply list_elem_of_here|done].
  - apply IH. intros r' Hr'. apply H. by apply list_elem_of_further.
Qed.

(** C10: for every table and every control name, the map has an entry
    under the control name, with no p-value, not significant and named
    after the control; when no row of the data type belongs to the control,
    that entry has count 0 and NaN mean, median, std and variance. *)
Theorem control_entry_always_present (StudentsT : Type)
    (students_t_new : float -> float -> float -> option StudentsT)
    (cdf : StudentsT -> float -> float) (unique : list string -> list string)
    (df : list Row) (dt ctrl : string) :
  exists cs,
    group_stats (compute_data_type_stats StudentsT students_t_new cdf unique df dt ctrl)
      !! ctrl = Some cs /\
    p_value cs = None /\ is_significant cs = false /\ group_name cs = ctrl /\
    ((forall r, r ∈ df -> row_data_type r = dt -> row_group r <> ctrl) ->
     count cs = 0%nat /\ is_nan (mean cs) = true /\
     is_nan (StatsCalculator.median cs) = true /\
     is_nan (std cs) = true /\ is_nan (variance cs) = true).
Proof.
  eexists. split.
  { rewrite data_type_stats_lookup. cbv zeta.
    rewrite bool_decide_true by done. reflexivity. }
  cbn [set_group_name p_value is_significant group_name].
  destruct (descriptive_not_significant
              (get_values_for_group (filter (fun r => row_data_type r = dt) df) ctrl))
    as [Hs Hp].
  split; [exact Hp|]. split; [exact Hs|]. split; [reflexivity|].
  intros Hno. rewrite (no_rows_no_values df dt ctrl Hno).
  vm_compute. auto.
Qed.

(** C7 at the sample table: group [B] against the control [A]. *)
Lemma std_diff_from_control_spec_witness :
  exists cs,
    group_stats (LibModels.sample_stats "A") !! "A" = Some cs /\
    std_diff_from_control
      (from_option id (compute_descriptive_stats [])
         (group_stats (LibModels.sample_stats "A") !! "B")) =
      if (0 <? std cs) && negb (is_nan (std cs))
      then Some ((mean (from_option id (compute_descriptive_stats [])
                          (group_stats (LibModels.sample_stats "A") !! "B"))
                  - mean cs) / std cs)
      else None.
Proof.
  apply (std_diff_from_control_spec LibModels.StudentsT LibModels.students_t_new
           LibModels.students_t_cdf LibModels.unique LibModels.sample_rows "x" "A" "B").
  - discriminate.
  - vm_compute. reflexivity.
Defined.

(** C10 at the sample table with a control name that matches no row. *)
Lemma control_entry_always_present_witness :
  exists cs,
    group_stats (LibModels.sample_stats "Z") !! "Z" = Some cs /\
    count cs = 0%nat /\ is_nan (mean cs) = true.
Proof.
  destruct (control_entry_always_present LibModels.StudentsT LibModels.students_t_new
              LibModels.students_t_cdf LibModels.unique LibModels.sample_rows "x" "Z")
    as (cs & Hl & _ & _ & _ & Hph).
  exists cs. split; [exact Hl|].
  assert (Hno : Forall (fun r => row_group r <> "Z") LibModels.sample_rows).
  { vm_compute. repeat (constructor; [discriminate|]). constructor. }
  rewrite Forall_forall in Hno.
  destruct (Hph (fun r Hr _ => Hno r Hr)) as (Hc & Hm & _). split; assumption.
Defined.
(** C6 at the sample table: group [B] is significant, with its p-value. *)
Lemma significant_implies_small_p_value_witness :
  is_significant (from_option id (compute_descriptive_stats [])
                    (group_stats (LibModels.sample_stats "A") !! "B")) = true /\
  exists p, p_value (from_option id (compute_descriptive_stats [])
                       (group_stats (LibModels.sample_stats "A") !! "B")) = Some p /\
            (p <=? 0.05) = true.
Proof.
  assert (Hs : is_significant (from_option id (compute_descriptive_stats [])
                 (group_stats (LibModels.sample_stats "A") !! "B")) = true)
    by (vm_compute; reflexivity).
  split; [exact Hs|].
  apply (proj2 (proj2 significant_implies_small_p_value) LibModels.StudentsT
           LibModels.students_t_new LibModels.students_t_cdf LibModels.unique
           LibModels.sample_rows "x" "A" "B"); [vm_compute; reflexivity|exact Hs].
Defined.
End StatsProperties.

Module BeeswarmProperties.
Import ChartPlotter.

Lemma filter_ext_in {A} (P1 P2 : A -> Prop) `{forall x, Decision (P1 x)}
    `{forall x, Decision (P2 x)} (l : list A) :
  (forall x, x ∈ l -> (P1 x <-> P2 x)) -> filter P1 l = filter P2 l.
Proof.
  induction l as [|x t IH]; intros Hl; [done|].
  rewrite !filter_cons.
  rewrite IH by (intros y Hy; apply Hl; by apply list_elem_of_further).
  specialize (Hl x (list_elem_of_here x t)).
  destruct (decide (P1 x)), (decide (P2 x)); first [reflexivity | exfalso; tauto].
Qed.

Lemma filter_all {A} (P : A -> Prop) `{forall x, Decision (P x)} (l : list A) :
  (forall x, x ∈ l -> P x) -> filter P l = l.
Proof.
  induction l as [|x t IH]; intros Hl; [done|].
  rewrite filter_cons_True by (apply Hl, list_elem_of_here).
  rewrite IH; [done|]. intros y Hy. apply Hl. by apply list_elem_of_further.
Qed.

Lemma filter_none {A} (P : A -> Prop) `{forall x, Decision (P x)} (l : list A) :
  (forall x, x ∈ l -> ~ P x) -> filter P l = [].
Proof.
  induction l as [|x t IH]; intros Hl; [done|].
  rewrite filter_cons_False by (apply Hl, list_elem_of_here).
  apply IH. intros y Hy. apply Hl. by apply list_elem_of_further.
Qed.

(** The map built by the [value_indices] loop started at index [i0]: under
    each key, the indices of the values with that key, in increasing order,
    after those already there. *)
Lemma index_values_lookup (p : float) (i0 : nat) (ys : list float)
    (m0 : gmap Z (list nat)) (k : Z) :
  index_values p i0 ys m0 !! k =
  match filter (fun i => (fun y => f64_round_as_i64 (y * p)) <$> ys !! (i - i0)%nat = Some k)
          (seq i0 (length ys)) with
  | [] => m0 !! k
  | cl => Some (default [] (m0 !! k) ++ cl)
  end.
Proof.
  revert i0 m0. induction ys as [|y t IH]; intros i0 m0; [reflexivity|].
  cbn [index_values length seq]. rewrite IH. clear IH.
  rewrite filter_cons.
  rewrite (filter_ext_in
             (fun i => (fun y => f64_round_as_i64 (y * p)) <$> (y :: t) !! (i - i0)%nat = Some k)
             (fun i => (fun y => f64_round_as_i64 (y * p)) <$> t !! (i - S i0)%nat = Some k)
             (seq (S i0) (length t))).
  2:{ intros i Hi. apply elem_of_seq in Hi.
      replace (i - i0)%nat with (S (i - S i0))%nat by lia. reflexivity. }
  rewrite Nat.sub_diag. cbn [lookup list_lookup fmap option_fmap option_map].
  destruct (decide (Some (f64_round_as_i64 (y * p)) = Some k)) as [Hk|Hk].
  - injection Hk as <-. rewrite lookup_insert_eq.
    destruct (filter _ (seq (S i0) (length t))); cbn [default]; [reflexivity|].
    cbv [id]. rewrite <- app_assoc. reflexivity.
  - rewrite lookup_insert_ne by congruence. reflexivity.
Qed.

(** From the empty map at index 0: the entry under [k] is the list of all
    indices whose value has the key [k], when there is one. *)
Lemma index_values_clusters (p : float) (ys : list float) (k : Z) :
  index_values p 0 ys ∅ !! k =
  match filter (fun i => (fun y => f64_round_as_i64 (y * p)) <$> ys !! i = Some k)
          (seq 0 (length ys)) with
  | [] => None
  | cl => Some cl
  end.
Proof.
  rewrite index_values_lookup.
  rewrite (filter_ext_in _
             (fun i => (fun y => f64_round_as_i64 (y * p)) <$> ys !! i = Some k)).
  2:{ intros i _. rewrite Nat.sub_0_r. reflexivity. }
  rewrite lookup_empty. destruct (filter _ _); reflexivity.
Qed.

Lemma imap_pair_snd {A} (L : list A) : (imap pair L).*2 = L.
Proof.
  apply list_eq. intros r. rewrite list_lookup_fmap, list_lookup_imap.
  by destruct (L !! r).
Qed.

Lemma elem_of_imap_pair {A} (L : list A) (r : nat) (x : A) :
  L !! r = Some x -> (r, x) ∈ imap pair L.
Proof.
  intros H. apply (list_elem_of_lookup_2 _ r). rewrite list_lookup_imap, H. done.
Qed.

Lemma foldl_insert_pairs_notin (h : nat -> float) (P : list (nat * nat))
    (pos : list float) (j : nat) :
  j ∉ P.*2 ->
  foldl (fun pos '(i, idx) => <[idx := h i]> pos) pos P !! j = pos !! j.
Proof.
  revert pos. induction P as [|[i idx] t IH]; intros pos Hj; [done|].
  cbn [foldl]. rewrite fmap_cons in Hj. cbn [snd] in Hj. rewrite IH.
  - apply list_lookup_insert_ne. intros ->. apply Hj, list_elem_of_here.
  - intros Hin. apply Hj. by apply list_elem_of_further.
Qed.

Lemma length_foldl_insert_pairs (h : nat -> float) (P : list (nat * nat))
    (pos : list float) :
  length (foldl (fun pos '(i, idx) => <[idx := h i]> pos) pos P) = length pos.
Proof.
  revert pos. induction P as [|[i idx] t IH]; intros pos; [done|].
  cbn [foldl]. rewrite IH. apply length_insert.
Qed.

Lemma foldl_insert_pairs_in (h : nat -> float) (P : list (nat * nat))
    (pos : list float) (i j : nat) :
  NoDup P.*2 -> (i, j) ∈ P -> (j < length pos)%nat ->
  foldl (fun pos '(i, idx) => <[idx := h i]> pos) pos P !! j = Some (h i).
Proof.
  revert pos. induction P as [|[i' idx] t IH]; intros pos Hnd Hin Hj.
  - by apply elem_of_nil in Hin.
  - cbn [foldl]. rewrite fmap_cons in Hnd. cbn [snd] in Hnd.
    apply NoDup_cons in Hnd as [Hn Hnd].
    apply elem_of_cons in Hin as [Heq|Hin].
    + injection Heq as -> ->. rewrite foldl_insert_pairs_notin by done.
      by apply list_lookup_insert_eq.
    + apply IH; [done|done|]. by rewrite length_insert.
Qed.

Lemma length_spread_cluster (c w : float) (pos : list float) (L : list nat) :
  length (spread_cluster c w pos L) = length pos.
Proof.
  unfold spread_cluster. case_match; [|done]. apply length_foldl_insert_pairs.
Qed.

Lemma length_fold_spread (c w : float) (Ls : list (list nat)) (pos : list float) :
  length (foldl (spread_cluster c w) pos Ls) = length pos.
Proof.
  revert pos. induction Ls as [|L t IH]; intros pos; [done|].
  cbn [foldl]. rewrite IH. apply length_spread_cluster.
Qed.

Lemma spread_cluster_notin (c w : float) (pos : list float) (L : list nat) (j : nat) :
  j ∉ L \/ (length L <= 1)%nat -> spread_cluster c w pos L !! j = pos !! j.
Proof.
  unfold spread_cluster. destruct (1 <? length L)%nat eqn:Hl; [|done].
  intros [Hj|Hle]; [|apply Nat.ltb_lt in Hl; lia].
  apply foldl_insert_pairs_notin. by rewrite imap_pair_snd.
Qed.

Lemma spread_cluster_in (c w : float) (pos : list float) (L : list nat) (r j : nat) :
  NoDup L -> (1 < length L)%nat -> L !! r = Some j -> (j < length pos)%nat ->
  spread_cluster c w pos L !! j =
    Some ((c - w / 2) + usize_as_f64 r * (w / usize_as_f64 (length L - 1)%nat)).
Proof.
  intros Hnd Hl Hr Hj. unfold spread_cluster.
  rewrite (proj2 (Nat.ltb_lt _ _) Hl). cbv zeta.
  rewrite (foldl_insert_pairs_in _ _ _ r j).
  - replace (Nat.max (length L) 2 - 1)%nat with (length L - 1)%nat by lia. reflexivity.
  - by rewrite imap_pair_snd.
  - by apply elem_of_imap_pair.
  - done.
Qed.

Lemma fold_spread_notin (c w : float) (Ls : list (list nat)) (pos : list float) (j : nat) :
  (forall L, L ∈ Ls -> j ∉ L \/ (length L <= 1)%nat) ->
  foldl (spread_cluster c w) pos Ls !! j = pos !! j.
Proof.
  revert pos. induction Ls as [|L t IH]; intros pos H; [done|]. cbn [foldl].
  rewrite IH.
  - apply spread_cluster_notin, H, list_elem_of_here.
  - intros L' HL'. apply H. by apply list_elem_of_further.
Qed.

Lemma fold_spread_in (c w : float) (Ls : list (list nat)) (pos : list float)
    (Lj : list nat) (r j : nat) :
  Lj ∈ Ls -> (forall L, L ∈ Ls -> j ∈ L -> L = Lj) ->
  NoDup Lj -> (1 < length Lj)%nat -> Lj !! r = Some j -> (j < length pos)%nat ->
  foldl (spread_cluster c w) pos Ls !! j =
    Some ((c - w / 2) + usize_as_f64 r * (w / usize_as_f64 (length Lj - 1)%nat)).
Proof.
  intros Hin Huniq Hnd Hl Hr. revert pos Hin Huniq.
  induction Ls as [|L t IH]; intros pos Hin Huniq Hj.
  - by apply elem_of_nil in Hin.
  - cbn [foldl]. destruct (decide (Lj ∈ t)) as [Ht|Ht].
    + apply IH; [done| |by rewrite length_spread_cluster].
      intros L' HL' HjL'. apply Huniq; [by apply list_elem_of_further|done].
    + apply elem_of_cons in Hin as [->|Hin]; [|done].
      rewrite fold_spread_notin.
      * by apply spread_cluster_in.
      * intros L' HL'. left. intros HjL'. apply Ht.
        rewrite <- (Huniq L'); [done|by apply list_elem_of_further|done].
Qed.

Lemma cluster_split (P : nat -> Prop) `{forall x, Decision (P x)} (n j : nat) :
  (j < n)%nat -> P j ->
  filter P (seq 0 n) = filter P (seq 0 j) ++ j :: filter P (seq (S j) (n - S j)).
Proof.
  intros Hj HP. replace n with (j + S (n - S j))%nat at 1 by lia.
  rewrite seq_app. cbn [seq Nat.add]. rewrite filter_app, filter_cons_True by done.
  reflexivity.
Qed.

Lemma rank_split (P : nat -> Prop) `{forall x, Decision (P x)} (j m : nat) :
  length (filter (fun i => (i < j)%nat)
            (filter P (seq 0 j) ++ j :: filter P (seq (S j) m))) =
  length (filter P (seq 0 j)).
Proof.
  rewrite filter_app, filter_cons_False by lia.
  rewrite (filter_all _ (filter P (seq 0 j))).
  - rewrite (filter_none _ (filter P (seq (S j) m))).
    + by rewrite app_nil_r.
    + intros x Hx. apply list_elem_of_filter in Hx as [_ Hx].
      apply elem_of_seq in Hx. lia.
  - intros x Hx. apply list_elem_of_filter in Hx as [_ Hx].
    apply elem_of_seq in Hx. lia.
Qed.

Lemma some_nonempty {A} (l : list A) :
  l <> [] -> match l with [] => None | a :: t => Some (a :: t) end = Some l.
Proof. destruct l; [done|reflexivity]. Qed.

Lemma some_nonempty_inv {A} (l L : list A) :
  match l with [] => None | a :: t => Some (a :: t) end = Some L -> L = l.
Proof. destruct l; [discriminate|]. by intros [= <-]. Qed.

Lemma beeswarm_by_length (values_of : gmap Z (list nat) -> list (list nat))
    (y_values : list float) (center width : float) :
  length (beeswarm_positions_by values_of y_values center width) = length y_values.
Proof.
  unfold beeswarm_positions_by.
  destruct (length y_values =? 0)%nat eqn:Hn.
  - apply Nat.eqb_eq in Hn. by rewrite Hn.
  - cbv zeta. rewrite length_fold_spread, length_replicate. reflexivity.
Qed.

(** The position of index [j], for every iteration order of the map that
    lists each of its values once. *)
Lemma beeswarm_by_lookup (values_of : gmap Z (list nat) -> list (list nat))
    (y_values : list float) (center width : float) (j : nat) (y : float) :
  (forall m, values_of m ≡ₚ (map_to_list m).*2) ->
  y_values !! j = Some y ->
  let cluster :=
    filter (fun i => (fun v => f64_round_as_i64 (v * 1e6)) <$> y_values !! i
                     = Some (f64_round_as_i64 (y * 1e6)))
      (seq 0 (length y_values)) in
  let rank := length (filter (fun i => (i < j)%nat) cluster) in
  beeswarm_positions_by values_of y_values center width !! j =
    Some (if (1 <? length cluster)%nat
          then (center - width / 2)
               + usize_as_f64 rank * (width / usize_as_f64 (length cluster - 1)%nat)
          else center).
Proof.
  intros Hperm Hy. cbv zeta.
  assert (Hj : (j < length y_values)%nat) by (apply lookup_lt_Some in Hy; exact Hy).
  remember (filter (fun i => (fun v => f64_round_as_i64 (v * 1e6)) <$> y_values !! i
                             = Some (f64_round_as_i64 (y * 1e6)))
              (seq 0 (length y_values))) as cluster eqn:Hcl.
  assert (Hsplit := Hcl).
  rewrite (cluster_split _ (length y_values) j Hj) in Hsplit
    by (rewrite Hy; reflexivity).
  assert (Hrank : cluster !! length (filter (fun i => (i < j)%nat) cluster) = Some j).
  { rewrite Hsplit, rank_split. by apply list_lookup_middle. }
  assert (Hjin : j ∈ cluster).
  { rewrite Hsplit. apply elem_of_app. right. apply list_elem_of_here. }
  assert (Hnd : NoDup cluster).
  { rewrite Hcl. apply NoDup_filter, NoDup_seq. }
  set (m := index_values 1e6 0 y_values ∅).
  assert (Hm : m !! f64_round_as_i64 (y * 1e6) = Some cluster).
  { unfold m. rewrite index_values_clusters, <- Hcl.
    apply some_nonempty. intros ->. by apply elem_of_nil in Hjin. }
  assert (Hin : cluster ∈ values_of m).
  { rewrite (Hperm m). apply (list_elem_of_fmap_2' _ _ (f64_round_as_i64 (y * 1e6), cluster)); [|done].
    by apply elem_of_map_to_list. }
  assert (Huniq : forall L, L ∈ values_of m -> j ∈ L -> L = cluster).
  { intros L HL HjL. rewrite (Hperm m) in HL. apply list_elem_of_fmap in HL as ([k L'] & -> & Hkl).
    cbn [snd] in *. apply elem_of_map_to_list in Hkl. unfold m in Hkl.
    rewrite index_values_clusters in Hkl.
    apply some_nonempty_inv in Hkl. subst L'.
    assert (HPk := HjL). apply list_elem_of_filter in HPk as [HPk _].
    rewrite Hy in HPk. cbn in HPk. injection HPk as HPk. subst k. done. }
  unfold beeswarm_positions_by.
  rewrite (proj2 (Nat.eqb_neq _ 0)) by lia. cbv zeta. fold m.
  destruct (1 <? length cluster)%nat eqn:Hl.
  + apply Nat.ltb_lt in Hl.
    apply (fold_spread_in _ _ _ _ cluster); try done.
    by rewrite length_replicate.
  + apply Nat.ltb_ge in Hl. rewrite fold_spread_notin.
    * by apply lookup_replicate_2.
    * intros L HL. destruct (decide (j ∈ L)) as [HjL|HjL]; [|by left].
      right. by rewrite (Huniq L HL HjL).
Qed.

(** C5: the beeswarm layout keeps the length of the values; the value at
    index [j] has the cluster of all indices whose value rounds to the same
    key [(y * 1e6).round()]; a value alone in its cluster stays at [center],
    and the [rank]-th index of a cluster of [count > 1] indices goes to
    [center - width / 2 + rank * (width / (count - 1))] (evaluated in
    doubles).  For [[5; 5; 5]] around [0] with width [0.6] the offsets are
    [-0.3], [0] and [0.3]. *)
Theorem beeswarm_positions_spec (y_values : list float) (center width : float) :
  length (beeswarm_positions y_values center width) = length y_values /\
  (forall (j : nat) (y : float), y_values !! j = Some y ->
     let cluster :=
       filter (fun i => (fun v => f64_round_as_i64 (v * 1e6)) <$> y_values !! i
                        = Some (f64_round_as_i64 (y * 1e6)))
         (seq 0 (length y_values)) in
     let rank := length (filter (fun i => (i < j)%nat) cluster) in
     beeswarm_positions y_values center width !! j =
       Some (if (1 <? length cluster)%nat
             then (center - width / 2)
                  + usize_as_f64 rank * (width / usize_as_f64 (length cluster - 1)%nat)
             else center)) /\
  beeswarm_positions [5; 5; 5] 0 0.6 = [-0.3; 0; 0.3].
Proof.
  split; [|split].
  - apply beeswarm_by_length.
  - intros j y Hy. apply beeswarm_by_lookup; [intros m; reflexivity|exact Hy].
  - vm_compute. reflexivity.
Qed.
End BeeswarmProperties.

Module Determinism.

(** C9: the results do not depend on the iteration order of the hash maps
    or on the order of the distinct group names: [compute_data_type_stats]
    gives the same [DataTypeStats] for any two [unique] functions listing
    the same names, and [beeswarm_positions] gives the same offsets for any
    two orders of the values of [value_indices].  A Rocq function returns
    one value for one input, so two calls on the same input agree. *)
Theorem outputs_independent_of_hash_order :
  (forall (StudentsT : Type)
          (students_t_new : float -> float -> float -> option StudentsT)
          (cdf : StudentsT -> float -> float)
          (unique1 unique2 : list string -> list string)
          (df : list StatsCalculator.Row) (dt ctrl : string),
     (forall (l : list string) (x : string), x ∈ unique1 l <-> x ∈ unique2 l) ->
     StatsCalculator.compute_data_type_stats StudentsT students_t_new cdf unique1 df dt ctrl =
     StatsCalculator.compute_data_type_stats StudentsT students_t_new cdf unique2 df dt ctrl) /\
  (forall (values_of1 values_of2 : gmap Z (list nat) -> list (list nat))
          (y_values : list float) (center width : float),
     (forall m, values_of1 m ≡ₚ (map_to_list m).*2) ->
     (forall m, values_of2 m ≡ₚ (map_to_list m).*2) ->
     ChartPlotter.beeswarm_positions_by values_of1 y_values center width =
     ChartPlotter.beeswarm_positions_by values_of2 y_values center width).
Proof.
  split.
  - intros StudentsT students_t_new cdf unique1 unique2 df dt ctrl Hu.
    assert (Hg : StatsCalculator.group_stats
                   (StatsCalculator.compute_data_type_stats StudentsT students_t_new cdf
                      unique1 df dt ctrl) =
                 StatsCalculator.group_stats
                   (StatsCalculator.compute_data_type_stats StudentsT students_t_new cdf
                      unique2 df dt ctrl)).
    { apply map_eq. intros k. rewrite !StatsProperties.data_type_stats_lookup. cbv zeta.
      case_match; [reflexivity|].
      erewrite (bool_decide_ext (k ∈ map _ (unique1 _)) (k ∈ map _ (unique2 _)));
        [reflexivity|].
      rewrite !list_elem_of_In, !in_map_iff.
      split; intros (x & Hx & Hin); exists x; split; try exact Hx;
        apply list_elem_of_In; apply list_elem_of_In in Hin; by apply Hu. }
    unfold StatsCalculator.compute_data_type_stats in Hg |- *.
    cbn [StatsCalculator.group_stats] in Hg. f_equal. exact Hg.
  - intros values_of1 values_of2 y_values center width Hp1 Hp2.
    apply list_eq. intros j. destruct (y_values !! j) as [y|] eqn:Hy.
    + pose proof (BeeswarmProperties.beeswarm_by_lookup values_of1 y_values center width
                    j y Hp1 Hy) as H1.
      pose proof (BeeswarmProperties.beeswarm_by_lookup values_of2 y_values center width
                    j y Hp2 Hy) as H2.
      cbv zeta in H1, H2. rewrite H1, H2. reflexivity.
    + apply lookup_ge_None_1 in Hy.
      rewrite !lookup_ge_None_2; [done| |];
        rewrite BeeswarmProperties.beeswarm_by_length; exact Hy.
Qed.

(** C9 on [[5; 1; 5]]: listing the clusters in reverse key order gives the
    same offsets as key order. *)
Lemma outputs_independent_of_hash_order_witness :
  ChartPlotter.beeswarm_positions_by (fun m => reverse ((map_to_list m).*2))
    [5; 1; 5] 0 0.6 =
  ChartPlotter.beeswarm_positions [5; 1; 5] 0 0.6.
Proof.
  apply (proj2 outputs_independent_of_hash_order).
  - intros m. apply reverse_Permutation.
  - intros m. reflexivity.
Defined.
End Determinism.

(* ================================================================== *)
(** * Further properties of the engine and its callers *)

(* ------------------------------------------------------------------ *)
(** ** Quote trimming *)

Module TrimProperties.
Import StatsCalculator.

Lemma str_app_cons (x : Ascii.ascii) (a b : string) :
  String x a +:+ b = String x (a +:+ b).
Proof. reflexivity. Qed.

Lemma str_app_nil_l (b : string) : EmptyString +:+ b = b.
Proof. reflexivity. Qed.

Lemma str_app_assoc (a b c : string) : (a +:+ b) +:+ c = a +:+ (b +:+ c).
Proof. induction a as [|x a IH]; [done|]. rewrite !str_app_cons, IH. done. Qed.

Lemma str_app_nil_r (s : string) : s +:+ EmptyString = s.
Proof. induction s as [|x s IH]; [done|]. rewrite str_app_cons, IH. done. Qed.

Lemma rev_app_spec (s t : string) : String.rev_app s t = String.rev s +:+ t.
Proof.
  unfold String.rev. revert t. induction s as [|a s IH]; intros t; simpl; [done|].
  rewrite (IH (String a t)), (IH (String a EmptyString)), str_app_assoc. done.
Qed.

Lemma rev_cons (a : Ascii.ascii) (s : string) :
  String.rev (String a s) = String.rev s +:+ String a EmptyString.
Proof. unfold String.rev at 1. simpl. apply rev_app_spec. Qed.

Lemma rev_app_distr (s t : string) :
  String.rev (s +:+ t) = String.rev t +:+ String.rev s.
Proof.
  induction s as [|a s IH].
  - rewrite str_app_nil_l. change (String.rev EmptyString) with EmptyString.
    rewrite str_app_nil_r. done.
  - rewrite str_app_cons, !rev_cons, IH, str_app_assoc. done.
Qed.

Lemma rev_involutive (s : string) : String.rev (String.rev s) = s.
Proof.
  induction s as [|a s IH]; [done|].
  rewrite rev_cons, rev_app_distr, IH. done.
Qed.

Lemma trim_start_app (s t : string) :
  trim_start_quotes (s +:+ t) =
  match trim_start_quotes s with
  | EmptyString => trim_start_quotes t
  | u => u +:+ t
  end.
Proof.
  induction s as [|a s IH]; simpl; [done|].
  destruct (Ascii.eqb a dquote); [exact IH|done].
Qed.

Lemma trim_start_idem (s : string) :
  trim_start_quotes (trim_start_quotes s) = trim_start_quotes s.
Proof.
  induction s as [|a s IH]; simpl; [done|].
  destruct (Ascii.eqb a dquote) eqn:Ha; [exact IH|]. simpl. rewrite Ha. done.
Qed.

(** After the leading quotes are gone, removing the trailing ones does not
    bring a leading quote back. *)
Lemma trim_start_of_trimmed (u : string) :
  trim_start_quotes u = u ->
  trim_start_quotes (String.rev (trim_start_quotes (String.rev u))) =
  String.rev (trim_start_quotes (String.rev u)).
Proof.
  destruct u as [|a u']; [done|]. simpl. intros Hu.
  destruct (Ascii.eqb a dquote) eqn:Ha.
  { exfalso. assert (Hl : (String.length (trim_start_quotes u') <= String.length u')%nat).
    { clear. induction u' as [|b u IH]; simpl; [lia|].
      destruct (Ascii.eqb b dquote); simpl; lia. }
    rewrite Hu in Hl. simpl in Hl. lia. }
  rewrite rev_cons, trim_start_app.
  assert (Hx : exists x, match trim_start_quotes (String.rev u') with
                         | EmptyString => trim_start_quotes (String a EmptyString)
                         | u0 => u0 +:+ String a EmptyString
                         end = x +:+ String a EmptyString).
  { destruct (trim_start_quotes (String.rev u')) as [|b v].
    - exists EmptyString. simpl. rewrite Ha. done.
    - exists (String b v). done. }
  destruct Hx as [x ->]. rewrite rev_app_distr. simpl. rewrite Ha. done.
Qed.

(** [trim_matches] on the double quote of the [to_string] of a string value is the
    [trim_matches] on the double quote of the string itself, and trimming twice is trimming
    once. *)
Lemma trim_anyvalue (s : string) :
  trim_matches_quote (anyvalue_to_string s) = trim_matches_quote s.
Proof.
  unfold trim_matches_quote, anyvalue_to_string. cbn [trim_start_quotes].
  rewrite Ascii.eqb_refl, trim_start_app.
  destruct (trim_start_quotes s) as [|b v] eqn:Hs.
  - cbn [trim_start_quotes]. rewrite Ascii.eqb_refl. done.
  - rewrite rev_app_distr.
    change (String.rev (String dquote EmptyString)) with (String dquote EmptyString).
    rewrite str_app_cons, str_app_nil_l. cbn [trim_start_quotes].
    rewrite Ascii.eqb_refl. done.
Qed.

Lemma trim_idempotent (s : string) :
  trim_matches_quote (trim_matches_quote s) = trim_matches_quote s.
Proof.
  unfold trim_matches_quote.
  rewrite (trim_start_of_trimmed (trim_start_quotes s) (trim_start_idem s)).
  rewrite rev_involutive, trim_start_idem. done.
Qed.

Lemma trim_start_no_quote (s : string) :
  (forall t, s <> String dquote t) -> trim_start_quotes s = s.
Proof.
  destruct s as [|a t]; [done|]. intros H. simpl.
  destruct (Ascii.eqb a dquote) eqn:Ha; [|done].
  apply Ascii.eqb_eq in Ha. subst a. exfalso. by apply (H t).
Qed.

(** [trim_matches] on the double quote gives the same result on a string and
    on its [to_string] (the string in double quotes), and trimming a trimmed
    name changes nothing. *)
Theorem trim_to_string_idempotent (s : string) :
  trim_matches_quote (anyvalue_to_string s) = trim_matches_quote s /\
  trim_matches_quote (trim_matches_quote s) = trim_matches_quote s.
Proof. split; [apply trim_anyvalue|apply trim_idempotent]. Qed.

(** A string value that neither starts nor ends with a double quote comes
    back unchanged from [to_string] followed by [trim_matches] on the double
    quote, the conversion the group and data-type names go through. *)
Theorem trim_to_string_roundtrip (s : string) :
  (forall t, s <> String dquote t) ->
  (forall t, s <> t +:+ String dquote EmptyString) ->
  trim_matches_quote (anyvalue_to_string s) = s.
Proof.
  intros Hs He. rewrite trim_anyvalue. unfold trim_matches_quote.
  rewrite (trim_start_no_quote s Hs), trim_start_no_quote, rev_involutive; [done|].
  intros t Ht. apply (He (String.rev t)).
  rewrite <- (rev_involutive s), Ht, rev_cons.
  change (String.rev EmptyString) with EmptyString. done.
Qed.

Lemma trim_to_string_roundtrip_witness :
  (forall t, "ab"%string <> String dquote t) /\
  (forall t, "ab"%string <> t +:+ String dquote EmptyString) /\
  trim_matches_quote (anyvalue_to_string "ab") = "ab"%string.
Proof.
  assert (H1 : forall t, "ab"%string <> String dquote t) by (intros t H; discriminate H).
  assert (H2 : forall t, "ab"%string <> t +:+ String dquote EmptyString).
  { intros t H. apply (f_equal String.rev) in H. rewrite rev_app_distr in H.
    vm_compute in H. discriminate H. }
  split; [exact H1|]. split; [exact H2|].
  exact (trim_to_string_roundtrip "ab" H1 H2).
Defined.
End TrimProperties.

(* ------------------------------------------------------------------ *)
(** ** The order of the groups *)

Module OrderedGroupsProperties.
Import StatsCalculator.

Lemma StronglySorted_sublist {A} (R : A -> A -> Prop) (l1 l2 : list A) :
  l1 `sublist_of` l2 -> StronglySorted R l2 -> StronglySorted R l1.
Proof.
  induction 1 as [|x l1 l2 Hs IH|x l1 l2 Hs IH]; intros Hl.
  - constructor.
  - apply StronglySorted_inv in Hl as [Hl Hf]. constructor; [by apply IH|].
    rewrite Forall_forall in Hf |- *. intros y Hy. apply Hf. by eapply elem_of_sublist.
  - apply StronglySorted_inv in Hl as [Hl _]. by apply IH.
Qed.

Lemma sorted_keys_sorted (m : gmap string GroupStats) :
  StronglySorted String.le (merge_sort String.le ((map_to_list m).*1)).
Proof. apply Sorted_StronglySorted; [apply _|]. apply Sorted_merge_sort. apply _. Qed.

Lemma elem_of_keys (m : gmap string GroupStats) (g : string) :
  g ∈ (map_to_list m).*1 <-> is_Some (m !! g).
Proof.
  rewrite list_elem_of_fmap. split.
  - intros ([k x] & -> & Hk). apply elem_of_map_to_list in Hk. by exists x.
  - intros [x Hx]. exists (g, x). split; [done|]. by apply elem_of_map_to_list.
Qed.

Lemma ordered_groups_cases (s : DataTypeStats) :
  let L := merge_sort String.le ((map_to_list (group_stats s)).*1) in
  (exists pos, L !! pos = Some (control_group s) /\
               get_ordered_groups s = control_group s :: delete pos L) \/
  ((control_group s ∉ L) /\ get_ordered_groups s = L).
Proof.
  cbv zeta. unfold get_ordered_groups. cbv zeta.
  destruct (list_find (fun g => g = control_group s) _) as [[pos g]|] eqn:Hf.
  - left. apply list_find_Some in Hf as (Hl & -> & _). eauto.
  - right. split; [|done]. apply list_find_None in Hf. rewrite Forall_forall in Hf.
    intros Hin. by apply (Hf _ Hin).
Qed.

Lemma ordered_groups_perm (s : DataTypeStats) :
  get_ordered_groups s ≡ₚ (map_to_list (group_stats s)).*1.
Proof.
  destruct (ordered_groups_cases s) as [(pos & Hl & ->)|[_ ->]];
    [|apply merge_sort_Permutation].
  rewrite <- (delete_Permutation _ _ _ Hl). apply merge_sort_Permutation.
Qed.

Lemma ordered_groups_elem_of (s : DataTypeStats) (g : string) :
  g ∈ get_ordered_groups s <-> is_Some (group_stats s !! g).
Proof. rewrite (ordered_groups_perm s). apply elem_of_keys. Qed.

Lemma ordered_groups_NoDup (s : DataTypeStats) : NoDup (get_ordered_groups s).
Proof. rewrite (ordered_groups_perm s). apply NoDup_fst_map_to_list. Qed.

Lemma ordered_groups_control_present (s : DataTypeStats) :
  is_Some (group_stats s !! control_group s) ->
  exists rest, get_ordered_groups s = control_group s :: rest /\
               StronglySorted String.le rest /\ control_group s ∉ rest.
Proof.
  intros Hc.
  destruct (ordered_groups_cases s) as [(pos & Hl & Heq)|[Hn _]].
  - exists (delete pos (merge_sort String.le ((map_to_list (group_stats s)).*1))).
    split; [exact Heq|]. split.
    + eapply StronglySorted_sublist; [apply sublist_delete|apply sorted_keys_sorted].
    + pose proof (ordered_groups_NoDup s) as Hnd. rewrite Heq in Hnd.
      by apply NoDup_cons in Hnd as [? _].
  - exfalso. apply Hn. rewrite merge_sort_Permutation. by apply elem_of_keys.
Qed.

Lemma ordered_groups_control_absent (s : DataTypeStats) :
  group_stats s !! control_group s = None ->
  StronglySorted String.le (get_ordered_groups s).
Proof.
  intros Hc.
  destruct (ordered_groups_cases s) as [(pos & Hl & _)|[_ ->]];
    [|apply sorted_keys_sorted].
  exfalso. apply list_elem_of_lookup_2 in Hl.
  rewrite merge_sort_Permutation, elem_of_keys, Hc in Hl. by destruct Hl.
Qed.

(** [get_ordered_groups] lists every group name of the map exactly once, and
    nothing else. *)
Theorem ordered_groups_are_the_keys (s : DataTypeStats) :
  NoDup (get_ordered_groups s) /\
  (forall g, g ∈ get_ordered_groups s <-> is_Some (group_stats s !! g)).
Proof. split; [apply ordered_groups_NoDup|apply ordered_groups_elem_of]. Qed.

(** When the control has an entry, [get_ordered_groups] is the control
    followed by the other names in ascending order; without one, it is all the
    names in ascending order. *)
Theorem ordered_groups_control_first (s : DataTypeStats) :
  (is_Some (group_stats s !! control_group s) ->
   exists rest, get_ordered_groups s = control_group s :: rest /\
                StronglySorted String.le rest /\ control_group s ∉ rest) /\
  (group_stats s !! control_group s = None ->
   StronglySorted String.le (get_ordered_groups s)).
Proof.
  split; [apply ordered_groups_control_present|apply ordered_groups_control_absent].
Qed.

(** For the statistics of a data type the order is never empty: the control
    comes first, then, in ascending order, every other group name found among
    the data type's rows. *)
Theorem ordered_groups_of_computed_stats (StudentsT : Type)
    (students_t_new : float -> float -> float -> option StudentsT)
    (cdf : StudentsT -> float -> float) (unique : list string -> list string)
    (df : list Row) (dt ctrl : string) :
  exists rest,
    get_ordered_groups
      (compute_data_type_stats StudentsT students_t_new cdf unique df dt ctrl) =
      ctrl :: rest /\
    StronglySorted String.le rest /\
    (forall g, g ∈ rest <->
       g <> ctrl /\
       g ∈ map (fun v => trim_matches_quote (anyvalue_to_string v))
             (unique (map row_group (filter (fun r => row_data_type r = dt) df)))).
Proof.
  set (s := compute_data_type_stats StudentsT students_t_new cdf unique df dt ctrl).
  assert (Hctrl : control_group s = ctrl) by reflexivity.
  destruct (ordered_groups_control_present s) as (rest & Heq & Hsort & Hnin).
  { rewrite Hctrl. unfold s. rewrite StatsProperties.data_type_stats_lookup.
    cbv zeta. rewrite bool_decide_true by done. eauto. }
  rewrite Hctrl in Heq, Hnin. exists rest. split; [exact Heq|]. split; [exact Hsort|].
  intros g. split.
  - intros Hg. assert (Hne : g <> ctrl) by (intros ->; contradiction).
    split; [exact Hne|].
    assert (Hin : g ∈ get_ordered_groups s) by (rewrite Heq; by apply list_elem_of_further).
    apply ordered_groups_elem_of in Hin. unfold s in Hin.
    rewrite StatsProperties.data_type_stats_lookup in Hin. cbv zeta in Hin.
    rewrite bool_decide_false in Hin by done.
    case_bool_decide; [done|]. by destruct Hin.
  - intros [Hne Hg].
    assert (Hin : g ∈ get_ordered_groups s).
    { apply ordered_groups_elem_of. unfold s.
      rewrite StatsProperties.data_type_stats_lookup. cbv zeta.
      rewrite bool_decide_false by done. rewrite bool_decide_true by done. eauto. }
    rewrite Heq in Hin. apply elem_of_cons in Hin as [->|]; [done|done].
Qed.
End OrderedGroupsProperties.

(* ------------------------------------------------------------------ *)
(** ** The statistics of a data type and of all data types *)

Module TableProperties.
Import StatsCalculator.

Section Engine.
Context (StudentsT : Type)
        (students_t_new : float -> float -> float -> option StudentsT)
        (cdf : StudentsT -> float -> float)
        (unique : list string -> list string).

Lemma values_of_type_df (df : list Row) (dt g : string) :
  get_values_for_group (filter (fun r => row_data_type r = dt) df) g =
  get_values_for_data_type_and_group df dt g.
Proof.
  unfold get_values_for_group, get_values_for_data_type_and_group.
  rewrite list_filter_filter. f_equal. apply list_filter_iff. tauto.
Qed.

Lemma ttest_significance_is_threshold (g c : list float) :
  snd (perform_ttest StudentsT students_t_new cdf g c) =
  (fst (perform_ttest StudentsT students_t_new cdf g c) <=? SIGNIFICANCE_THRESHOLD).
Proof. unfold perform_ttest. cbv zeta. repeat case_match; reflexivity. Qed.

Lemma descriptive_count (values : list float) :
  count (compute_descriptive_stats values) = length values.
Proof.
  unfold compute_descriptive_stats.
  destruct (length values =? 0)%nat eqn:Hn; [|done].
  apply Nat.eqb_eq in Hn. rewrite Hn. done.
Qed.

(** The t-test fields of a non-control entry: a p-value exactly when the
    control has values, and significance exactly when that p-value is at most
    the threshold. *)
Lemma group_entry_ttest_fields (type_df : list Row) (cv : list float)
    (cstd cmean : float) (name : string) :
  let gs := group_entry StudentsT students_t_new cdf type_df cv cstd cmean name in
  (is_Some (p_value gs) <-> cv <> []) /\
  (is_significant gs = true <->
     exists p, p_value gs = Some p /\ (p <=? SIGNIFICANCE_THRESHOLD) = true).
Proof.
  cbv zeta. unfold group_entry. cbv zeta.
  destruct (decide (cv = [])) as [Hc|Hc].
  - rewrite (bool_decide_true (cv = [])) by done. cbn [negb].
    destruct ((0 <? cstd) && negb (is_nan cmean));
      cbn [is_significant p_value set_std_diff set_group_name];
      destruct (StatsProperties.descriptive_not_significant
                  (get_values_for_group type_df name)) as [-> ->];
      (split; [split; [intros [? ?]; discriminate|done]|
               split; [discriminate|intros (? & ? & _); discriminate]]).
  - rewrite (bool_decide_false (cv = [])) by done. cbn [negb].
    pose proof (ttest_significance_is_threshold (get_values_for_group type_df name) cv) as Ht.
    destruct (perform_ttest StudentsT students_t_new cdf
                (get_values_for_group type_df name) cv) as [pv sig].
    cbn [fst snd] in Ht. cbn [is_significant p_value set_ttest].
    split; [split; [done|eauto]|].
    split.
    + intros ->. eauto.
    + intros (p & Hp & Hle). injection Hp as <-. congruence.
Qed.

Lemma stats_lookup_cases (df : list Row) (dt ctrl k : string) (gs : GroupStats) :
  group_stats (compute_data_type_stats StudentsT students_t_new cdf unique df dt ctrl)
    !! k = Some gs ->
  (k = ctrl /\
   gs = set_group_name ctrl (compute_descriptive_stats
                               (get_values_for_data_type_and_group df dt ctrl))) \/
  (k <> ctrl /\
   gs = group_entry StudentsT students_t_new cdf (filter (fun r => row_data_type r = dt) df)
          (get_values_for_data_type_and_group df dt ctrl)
          (std (compute_descriptive_stats (get_values_for_data_type_and_group df dt ctrl)))
          (mean (compute_descriptive_stats (get_values_for_data_type_and_group df dt ctrl)))
          k).
Proof.
  rewrite StatsProperties.data_type_stats_lookup. cbv zeta.
  rewrite !values_of_type_df.
  destruct (decide (k = ctrl)) as [->|Hne].
  - rewrite bool_decide_true by done. intros Hl. injection Hl as <-. by left.
  - rewrite bool_decide_false by done.
    case_bool_decide; [|discriminate]. intros Hl. injection Hl as <-. by right.
Qed.

Lemma entry_fields (df : list Row) (dt ctrl k : string)
    (gs : GroupStats) :
  group_stats (compute_data_type_stats StudentsT students_t_new cdf unique df dt ctrl)
    !! k = Some gs ->
  let d := compute_descriptive_stats (get_values_for_data_type_and_group df dt k) in
  group_name gs = k /\ count gs = length (get_values_for_data_type_and_group df dt k) /\
  mean gs = mean d /\ StatsCalculator.median gs = StatsCalculator.median d /\
  std gs = std d /\ variance gs = variance d /\ p95 gs = p95 d /\ p05 gs = p05 d.
Proof.
  intros Hl. cbv zeta. rewrite <- descriptive_count.
  destruct (stats_lookup_cases df dt ctrl k gs Hl) as [[-> ->]|[Hne ->]].
  - cbn [set_group_name group_name count mean StatsCalculator.median std variance p95 p05].
    repeat split.
  - unfold group_entry. cbv zeta. rewrite values_of_type_df.
    destruct (_ && _); destruct (negb _);
      try destruct (perform_ttest _ _ _ _ _);
      cbn [set_ttest set_std_diff set_group_name group_name count mean
           StatsCalculator.median std variance p95 p05]; repeat split.
Qed.

(** Every entry of the table for a data type is named after its group and
    carries the descriptive statistics of exactly the values
    [get_values_for_data_type_and_group] returns for it, the values the
    charts are drawn from. *)
Theorem entry_describes_group_values (df : list Row) (dt ctrl k : string)
    (gs : GroupStats) :
  group_stats (compute_data_type_stats StudentsT students_t_new cdf unique df dt ctrl)
    !! k = Some gs ->
  let d := compute_descriptive_stats (get_values_for_data_type_and_group df dt k) in
  group_name gs = k /\ count gs = length (get_values_for_data_type_and_group df dt k) /\
  mean gs = mean d /\ StatsCalculator.median gs = StatsCalculator.median d /\
  std gs = std d /\ variance gs = variance d /\ p95 gs = p95 d /\ p05 gs = p05 d.
Proof. apply entry_fields. Qed.

(** A non-control entry has a p-value exactly when the control group has at
    least one value of the data type, and is significant exactly when that
    p-value is at most 0.05. *)
Theorem p_value_iff_control_values (df : list Row) (dt ctrl k : string) (gs : GroupStats) :
  group_stats (compute_data_type_stats StudentsT students_t_new cdf unique df dt ctrl)
    !! k = Some gs ->
  k <> ctrl ->
  (is_Some (p_value gs) <-> get_values_for_data_type_and_group df dt ctrl <> []) /\
  (is_significant gs = true <-> exists p, p_value gs = Some p /\ (p <=? 0.05) = true).
Proof.
  intros Hl Hne.
  destruct (stats_lookup_cases df dt ctrl k gs Hl) as [[? _]|[_ ->]]; [done|].
  apply group_entry_ttest_fields.
Qed.

Lemma has_significant_results_iff (s : DataTypeStats) :
  has_significant_results s = true <->
  exists k gs, group_stats s !! k = Some gs /\ k <> control_group s /\
               is_significant gs = true.
Proof.
  unfold has_significant_results. rewrite existsb_exists. split.
  - intros ([k gs] & Hin & Hb). apply andb_true_iff in Hb as [Hk Hs].
    apply negb_true_iff, bool_decide_eq_false in Hk.
    apply list_elem_of_In, elem_of_map_to_list in Hin. eauto.
  - intros (k & gs & Hl & Hk & Hs). exists (k, gs). split.
    + apply list_elem_of_In, elem_of_map_to_list. done.
    + rewrite bool_decide_false by done. rewrite Hs. done.
Qed.

(** [has_significant_results] on the statistics of a data type holds exactly
    when some group other than the control has a p-value of at most 0.05. *)
Theorem has_significant_results_spec (df : list Row) (dt ctrl : string) :
  has_significant_results
    (compute_data_type_stats StudentsT students_t_new cdf unique df dt ctrl) = true <->
  exists k gs p,
    k <> ctrl /\
    group_stats (compute_data_type_stats StudentsT students_t_new cdf unique df dt ctrl)
      !! k = Some gs /\
    p_value gs = Some p /\ (p <=? 0.05) = true.
Proof.
  rewrite has_significant_results_iff. cbn [control_group compute_data_type_stats].
  split.
  - intros (k & gs & Hl & Hk & Hs).
    destruct (stats_lookup_cases df dt ctrl k gs Hl) as [[? _]|[_ ->]]; [done|].
    apply group_entry_ttest_fields in Hs as (p & Hp & Hle). eauto 10.
  - intros (k & gs & p & Hk & Hl & Hp & Hle). exists k, gs.
    split; [exact Hl|]. split; [exact Hk|].
    destruct (stats_lookup_cases df dt ctrl k gs Hl) as [[? _]|[_ ->]]; [done|].
    apply group_entry_ttest_fields. eauto.
Qed.

(** Without values for the control, no t-test runs and nothing is
    significant. *)
Theorem no_control_values_not_significant (df : list Row) (dt ctrl : string) :
  get_values_for_data_type_and_group df dt ctrl = [] ->
  has_significant_results
    (compute_data_type_stats StudentsT students_t_new cdf unique df dt ctrl) = false.
Proof.
  intros Hc. apply not_true_iff_false. rewrite has_significant_results_iff.
  intros (k & gs & Hl & Hk & Hs).
  destruct (stats_lookup_cases df dt ctrl k gs Hl) as [[? _]|[_ Hgs]]; [done|].
  pose proof (group_entry_ttest_fields (filter (fun r => row_data_type r = dt) df)
                (get_values_for_data_type_and_group df dt ctrl)
                (std (compute_descriptive_stats (get_values_for_data_type_and_group df dt ctrl)))
                (mean (compute_descriptive_stats (get_values_for_data_type_and_group df dt ctrl)))
                k) as [Hp Hsig].
  rewrite <- Hgs in Hp, Hsig.
  apply Hsig in Hs as (p & Hpv & _). apply Hp; [by exists p|done].
Qed.

(** A data type no row carries gets a table with the control alone, with the
    default statistics (count 0, NaN fields), provided polars' [unique] of an
    empty column is empty. *)
Theorem data_type_without_rows (df : list Row) (dt ctrl : string) :
  unique [] = [] ->
  (forall r, r ∈ df -> row_data_type r <> dt) ->
  group_stats (compute_data_type_stats StudentsT students_t_new cdf unique df dt ctrl) =
  {[ctrl := set_group_name ctrl default_group_stats]}.
Proof.
  intros Hu Hno.
  unfold compute_data_type_stats. cbv zeta.
  rewrite (BeeswarmProperties.filter_none _ df Hno). cbn [map group_stats].
  rewrite Hu. reflexivity.
Qed.

Lemma all_stats_lookup (df : list Row) (ctrl dt : string) (s : DataTypeStats) :
  compute_all_stats_parallel StudentsT students_t_new cdf unique df ctrl !! dt = Some s <->
  s = compute_data_type_stats StudentsT students_t_new cdf unique df dt ctrl /\
  dt ∈ map (fun v => trim_matches_quote (anyvalue_to_string v))
         (unique (map row_data_type df)).
Proof.
  unfold compute_all_stats_parallel. cbv zeta. split.
  - intros Hl. apply elem_of_list_to_map_2, list_elem_of_fmap in Hl as (d & Hd & Hin).
    injection Hd as -> ->. done.
  - intros [-> Hin]. apply elem_of_list_to_map_1'.
    + intros y Hy. apply list_elem_of_fmap in Hy as (d & Hd & _).
      injection Hd as -> ->. done.
    + apply list_elem_of_fmap. eauto.
Qed.

End Engine.

Lemma entry_describes_group_values_witness :
  exists gs,
    group_stats (LibModels.sample_stats "A") !! "B" = Some gs /\
    group_name gs = "B"%string /\
    count gs = length (get_values_for_data_type_and_group LibModels.sample_rows "x" "B").
Proof.
  exists (from_option id default_group_stats
            (group_stats (LibModels.sample_stats "A") !! "B")).
  assert (Hl : group_stats (LibModels.sample_stats "A") !! "B" =
               Some (from_option id default_group_stats
                       (group_stats (LibModels.sample_stats "A") !! "B")))
    by (vm_compute; reflexivity).
  destruct (entry_describes_group_values LibModels.StudentsT LibModels.students_t_new
              LibModels.students_t_cdf LibModels.unique LibModels.sample_rows "x" "A" "B"
              _ Hl) as (Hn & Hc & _).
  split; [exact Hl|]. split; [exact Hn|exact Hc].
Defined.

Lemma p_value_iff_control_values_witness :
  exists gs,
    group_stats (LibModels.sample_stats "A") !! "B" = Some gs /\
    "B"%string <> "A"%string /\
    get_values_for_data_type_and_group LibModels.sample_rows "x" "A" <> [] /\
    is_Some (p_value gs).
Proof.
  exists (from_option id default_group_stats
            (group_stats (LibModels.sample_stats "A") !! "B")).
  assert (Hl : group_stats (LibModels.sample_stats "A") !! "B" =
               Some (from_option id default_group_stats
                       (group_stats (LibModels.sample_stats "A") !! "B")))
    by (vm_compute; reflexivity).
  assert (Hne : "B"%string <> "A"%string) by discriminate.
  assert (Hc : get_values_for_data_type_and_group LibModels.sample_rows "x" "A" <> [])
    by (vm_compute; discriminate).
  destruct (p_value_iff_control_values LibModels.StudentsT LibModels.students_t_new
              LibModels.students_t_cdf LibModels.unique LibModels.sample_rows "x" "A" "B"
              _ Hl Hne) as [[_ Hp] _].
  split; [exact Hl|]. split; [exact Hne|]. split; [exact Hc|]. exact (Hp Hc).
Defined.

Lemma no_control_values_not_significant_witness :
  get_values_for_data_type_and_group LibModels.sample_rows "x" "Z" = [] /\
  has_significant_results (LibModels.sample_stats "Z") = false.
Proof.
  assert (Hc : get_values_for_data_type_and_group LibModels.sample_rows "x" "Z" = [])
    by (vm_compute; reflexivity).
  split; [exact Hc|].
  exact (no_control_values_not_significant LibModels.StudentsT LibModels.students_t_new
           LibModels.students_t_cdf LibModels.unique LibModels.sample_rows "x" "Z" Hc).
Defined.

Lemma data_type_without_rows_witness :
  LibModels.unique [] = [] /\
  (forall r, r ∈ LibModels.sample_rows -> row_data_type r <> "y"%string) /\
  group_stats (compute_data_type_stats LibModels.StudentsT LibModels.students_t_new
                 LibModels.students_t_cdf LibModels.unique LibModels.sample_rows "y" "A") =
  {["A"%string := set_group_name "A" default_group_stats]}.
Proof.
  assert (Hu : LibModels.unique [] = []) by reflexivity.
  assert (Hr : forall r, r ∈ LibModels.sample_rows -> row_data_type r <> "y"%string).
  { apply Forall_forall. vm_compute.
    repeat constructor; discriminate. }
  split; [exact Hu|]. split; [exact Hr|].
  exact (data_type_without_rows LibModels.StudentsT LibModels.students_t_new
           LibModels.students_t_cdf LibModels.unique LibModels.sample_rows "y" "A" Hu Hr).
Defined.
End TableProperties.

(* ------------------------------------------------------------------ *)
(** ** Series colours *)

Module ColorProperties.
Import ChartPlotter (Color32, CONTROL_COLOR, PALETTE, get_group_color, series_colors).
Import StaticChartRenderer (Rgba, BLUE, RED, GREEN, LIGHT_BLUE, LIGHT_RED, LIGHT_GREEN,
  get_colors, legend_colors, plot_colors).

Lemma palette_not_control (n : nat) : PALETTE !!! (n mod length PALETTE)%nat <> CONTROL_COLOR.
Proof.
  assert (Hn : (n mod length PALETTE < length PALETTE)%nat)
    by (apply Nat.mod_upper_bound; discriminate).
  pose proof (list_lookup_lookup_total_lt PALETTE _ Hn) as Hl.
  apply list_elem_of_lookup_2 in Hl. intros Heq. rewrite Heq in Hl.
  assert (Hno : bool_decide (CONTROL_COLOR ∈ PALETTE) = false) by reflexivity.
  apply bool_decide_eq_false in Hno. contradiction.
Qed.

Lemma even_mod2 (k : nat) : (k mod 2 =? 0)%nat = Nat.even k.
Proof.
  destruct (Nat.Even_or_Odd k) as [[j ->]|[j ->]].
  - rewrite Nat.even_mul, Nat.mul_comm, Nat.Div0.mod_mul. reflexivity.
  - rewrite Nat.even_add, Nat.even_mul, Nat.add_comm, Nat.mul_comm, Nat.Div0.mod_add.
    reflexivity.
Qed.

Lemma series_colors_control (ctrl : string) (dbg : gmap string (list float))
    (groups : list string) (i : nat) (g : string) (c : Color32) :
  (g, c) ∈ series_colors ctrl dbg groups i -> (c = CONTROL_COLOR <-> g = ctrl).
Proof.
  revert i. induction groups as [|h t IH]; intros i; simpl; [intros Hin; inversion Hin|].
  case_bool_decide; [apply IH|].
  intros Hin. apply elem_of_cons in Hin as [Heq|Hin]; [|eapply IH; exact Hin].
  injection Heq as -> ->. unfold get_group_color.
  case_bool_decide; [tauto|]. split; [|done]. intros Hc. by apply palette_not_control in Hc.
Qed.

Lemma series_colors_non_control (ctrl : string) (dbg : gmap string (list float))
    (groups : list string) (i : nat) :
  let nc := filter (fun p => p.1 <> ctrl) (series_colors ctrl dbg groups i) in
  nc.*2 = map (fun k => PALETTE !!! (k mod length PALETTE)%nat) (seq i (length nc)).
Proof.
  cbv zeta. revert i. induction groups as [|h t IH]; intros i; cbn [series_colors]; [done|].
  case_bool_decide; [apply IH|].
  rewrite filter_cons. case_decide as Hh; cbn [fst] in Hh.
  - rewrite fmap_cons, length_cons. rewrite (bool_decide_false (h = ctrl)) by done.
    rewrite IH. cbn [seq map snd]. unfold get_group_color.
    rewrite bool_decide_false by done. reflexivity.
  - (try apply dec_stable in Hh). subst h. rewrite bool_decide_true by done. apply IH.
Qed.

(** In [draw_boxplot_chart] and [draw_qq_chart] the control is the only
    series drawn in [CONTROL_COLOR]; the non-control series take the palette
    colours in drawing order, cycling every ten, so up to ten of them get ten
    different colours. *)
Theorem series_colors_spec (ctrl : string) (dbg : gmap string (list float))
    (groups : list string) :
  let cs := series_colors ctrl dbg groups 0 in
  let nc := filter (fun p => p.1 <> ctrl) cs in
  (forall g c, (g, c) ∈ cs -> (c = CONTROL_COLOR <-> g = ctrl)) /\
  nc.*2 = map (fun k => PALETTE !!! (k mod 10)%nat) (seq 0 (length nc)) /\
  ((length nc <= 10)%nat -> NoDup nc.*2).
Proof.
  cbv zeta. split; [intros g c; apply series_colors_control|].
  pose proof (series_colors_non_control ctrl dbg groups 0) as Hnc. cbv zeta in Hnc.
  split; [exact Hnc|]. rewrite Hnc.
  generalize (length (filter (fun p => p.1 <> ctrl) (series_colors ctrl dbg groups 0))).
  intros m Hm.
  do 11 (destruct m as [|m]; [apply (proj1 (bool_decide_eq_true _)); reflexivity|]). lia.
Qed.

Lemma get_colors_non_control (k : nat) (filled : bool) :
  get_colors k false filled =
  if Nat.even k then (if filled then LIGHT_RED else RED)
  else (if filled then LIGHT_GREEN else GREEN).
Proof. unfold get_colors. rewrite even_mod2. done. Qed.

Lemma plot_colors_elem (ctrl : string) (dbg : gmap string (list float)) (filled : bool)
    (groups : list string) (i : nat) (g : string) (c : Rgba) :
  (g, c) ∈ plot_colors ctrl dbg filled groups i ->
  g ∈ groups /\ (g = ctrl -> c = if filled then LIGHT_BLUE else BLUE) /\
  (exists vs, dbg !! g = Some vs /\ vs <> []).
Proof.
  revert i. induction groups as [|h t IH]; intros i; simpl; [intros Hin; inversion Hin|].
  destruct (dbg !! h) as [vals|] eqn:Hv.
  2:{ intros Hin. destruct (IH _ Hin) as (? & ? & ?). split; [by apply list_elem_of_further|done]. }
  case_bool_decide as Hvals.
  { intros Hin. destruct (IH _ Hin) as (? & ? & ?). split; [by apply list_elem_of_further|done]. }
  intros Hin. apply elem_of_cons in Hin as [Heq|Hin].
  - injection Heq as -> ->. split; [apply list_elem_of_here|]. split; [|eauto].
    intros ->. rewrite bool_decide_true by done. done.
  - destruct (IH _ Hin) as (? & ? & ?). split; [by apply list_elem_of_further|done].
Qed.

Lemma plot_colors_non_control (ctrl : string) (dbg : gmap string (list float))
    (filled : bool) (groups : list string) (i : nat) :
  let nc := filter (fun p => p.1 <> ctrl) (plot_colors ctrl dbg filled groups i) in
  nc.*2 = map (fun k => get_colors k false filled) (seq i (length nc)).
Proof.
  cbv zeta. revert i. induction groups as [|h t IH]; intros i; simpl; [done|].
  destruct (dbg !! h) as [vals|]; [|apply IH].
  case_bool_decide; [apply IH|].
  rewrite filter_cons. case_decide as Hh; cbn [fst] in Hh.
  - rewrite bool_decide_false by done. rewrite fmap_cons, length_cons, IH. done.
  - (try apply dec_stable in Hh). subst h. rewrite bool_decide_true by done. apply IH.
Qed.

Lemma legend_colors_non_control (ctrl : string) (groups : list string) (i : nat) :
  let nc := filter (fun p => p.1 <> ctrl) (legend_colors ctrl groups i) in
  nc.*2 = map (fun k => get_colors k false false) (seq i (length nc)).
Proof.
  cbv zeta. revert i. induction groups as [|h t IH]; intros i; simpl; [done|].
  rewrite filter_cons. case_decide as Hh; cbn [fst] in Hh.
  - rewrite bool_decide_false by done. rewrite fmap_cons, length_cons, IH. done.
  - (try apply dec_stable in Hh). subst h. rewrite bool_decide_true by done. apply IH.
Qed.

(** [draw_boxplot] and [draw_qq_plot] draw the control in blue ([LIGHT_BLUE]
    for the box fill) and the non-control groups, in drawing order,
    alternately in red and green ([LIGHT_RED] and [LIGHT_GREEN] for the
    fill), starting with red; groups without values are not drawn. *)
Theorem plot_colors_spec (ctrl : string) (dbg : gmap string (list float))
    (filled : bool) (groups : list string) :
  let cs := plot_colors ctrl dbg filled groups 0 in
  let nc := filter (fun p => p.1 <> ctrl) cs in
  (forall g c, (g, c) ∈ cs ->
     (exists vs, dbg !! g = Some vs /\ vs <> []) /\
     (g = ctrl -> c = if filled then LIGHT_BLUE else BLUE)) /\
  nc.*2 = map (fun k => if Nat.even k then (if filled then LIGHT_RED else RED)
                        else (if filled then LIGHT_GREEN else GREEN))
            (seq 0 (length nc)).
Proof.
  cbv zeta. split.
  - intros g c Hin. destruct (plot_colors_elem _ _ _ _ _ _ _ Hin) as (_ & ? & ?). done.
  - rewrite plot_colors_non_control. apply map_ext. intros k. apply get_colors_non_control.
Qed.


End ColorProperties.

(* ------------------------------------------------------------------ *)
(** ** Welch's t-test does not depend on which sample is the control *)

Module TTestSymmetry.
Import StatsCalculator.

(** Binary64 rounding to nearest, ties to even, does not look at the sign. *)
Lemma SFabs_round_aux (sx sy : bool) (mx ex : Z) (lx : location) :
  SFabs (binary_round_aux prec emax sx mx ex lx) =
  SFabs (binary_round_aux prec emax sy mx ex lx).
Proof.
  unfold binary_round_aux.
  destruct (shr_fexp prec emax mx ex lx) as [mrs' e'].
  destruct (shr_fexp prec emax _ e' loc_Exact) as [mrs'' e''].
  destruct (shr_m mrs''); [done| |done].
  destruct (Z.leb e'' (emax - prec)); done.
Qed.

Lemma SFabs_normalize_opp (m e : Z) :
  SFabs (binary_normalize prec emax m e false) =
  SFabs (binary_normalize prec emax (- m) e false).
Proof.
  destruct m as [|p|p]; [done| |];
    [change (- Z.pos p)%Z with (Z.neg p)|change (- Z.neg p)%Z with (Z.pos p)];
    unfold binary_normalize, binary_round;
    destruct (shl_align _ _ _); apply SFabs_round_aux.
Qed.

Lemma SFadd_comm (x y : spec_float) : SFadd prec emax x y = SFadd prec emax y x.
Proof.
  destruct x as [sx|sx| |sx mx ex], y as [sy|sy| |sy my ey];
    unfold SFadd; try reflexivity;
    try (destruct sx, sy; reflexivity).
  rewrite Z.min_comm, Z.add_comm. reflexivity.
Qed.

Lemma SFabs_sub_comm (x y : spec_float) :
  SFabs (SFsub prec emax x y) = SFabs (SFsub prec emax y x).
Proof.
  destruct x as [sx|sx| |sx mx ex], y as [sy|sy| |sy my ey];
    unfold SFsub; try reflexivity;
    try (destruct sx, sy; reflexivity).
  rewrite (Z.min_comm ey ex), SFabs_normalize_opp. f_equal. f_equal. lia.
Qed.

Lemma SFabs_div (x x' y : spec_float) :
  SFabs x = SFabs x' -> SFabs (SFdiv prec emax x y) = SFabs (SFdiv prec emax x' y).
Proof.
  destruct x as [sx|sx| |sx mx ex], x' as [sx'|sx'| |sx' mx' ex'];
    cbn [SFabs]; intros H; try discriminate;
    [..|injection H as <- <-];
    destruct y as [sy|sy| |sy my ey]; unfold SFdiv; try reflexivity.
  destruct (SFdiv_core_binary prec emax _ _ _ _) as [[mz ez] lz].
  apply SFabs_round_aux.
Qed.

Lemma float_eq_of_SF (x y : float) : Prim2SF x = Prim2SF y -> x = y.
Proof. intros H. rewrite <- (SF2Prim_Prim2SF x), <- (SF2Prim_Prim2SF y), H. done. Qed.

Lemma float_add_comm (a b : float) : a + b = b + a.
Proof. apply float_eq_of_SF. rewrite !add_spec. apply SFadd_comm. Qed.

Lemma abs_div_sub_comm (a b s : float) : abs ((a - b) / s) = abs ((b - a) / s).
Proof.
  apply float_eq_of_SF. rewrite !abs_spec, !div_spec. apply SFabs_div.
  rewrite !sub_spec. apply SFabs_sub_comm.
Qed.

(** [perform_ttest] is symmetric in its two samples: exchanging the group's
    values and the control's gives the same p-value and the same verdict, bit
    for bit, whatever the Student's-t distribution used. *)
Theorem perform_ttest_symmetric (StudentsT : Type)
    (students_t_new : float -> float -> float -> option StudentsT)
    (cdf : StudentsT -> float -> float) (g c : list float) :
  perform_ttest StudentsT students_t_new cdf g c =
  perform_ttest StudentsT students_t_new cdf c g.
Proof.
  unfold perform_ttest. cbv zeta.
  set (n1 := usize_as_f64 (length g)). set (n2 := usize_as_f64 (length c)).
  rewrite (orb_comm (n2 <? 2)).
  destruct ((n1 <? 2) || (n2 <? 2)); [reflexivity|].
  set (m1 := f64_sum g / n1). set (m2 := f64_sum c / n2).
  set (a := f64_sum (map (fun x => powi2 (x - m1)) g) / (n1 - 1) / n1).
  set (b := f64_sum (map (fun x => powi2 (x - m2)) c) / (n2 - 1) / n2).
  rewrite (float_add_comm b a).
  rewrite (float_add_comm (powi2 b / (n2 - 1))).
  rewrite (abs_div_sub_comm m2 m1).
  reflexivity.
Qed.
End TTestSymmetry.

(* ------------------------------------------------------------------ *)
(** ** From the loaded rows to the chart data *)

Module PipelineProperties.
Import StatsCalculator DataProcessor ChartifyApp.

Lemma prepared_rows_elem (rows : list RawRow) (r : Row) :
  r ∈ prepare_data_single rows ->
  exists g dt v,
    r = mk_row (trim_matches_quote (anyvalue_to_string g))
               (trim_matches_quote (anyvalue_to_string dt)) (Some v) /\
    is_nan v = false.
Proof.
  unfold prepare_data_single. rewrite list_elem_of_omap.
  intros (raw & _ & Hr).
  destruct (raw_group raw) as [g|], (raw_data_type raw) as [dt|], (raw_value raw) as [v|];
    try discriminate.
  destruct (is_nan v) eqn:Hv; [discriminate|]. injection Hr as <-. eauto.
Qed.

Lemma prepared_rows_fields (rows : list RawRow) (r : Row) :
  r ∈ prepare_data_single rows ->
  (exists v, row_value r = Some v /\ is_nan v = false) /\
  trim_matches_quote (anyvalue_to_string (row_group r)) = row_group r /\
  trim_matches_quote (anyvalue_to_string (row_data_type r)) = row_data_type r.
Proof.
  intros Hr. destruct (prepared_rows_elem rows r Hr) as (g & dt & v & -> & Hv).
  cbn [row_value row_group row_data_type].
  rewrite !TrimProperties.trim_anyvalue, !TrimProperties.trim_idempotent. eauto.
Qed.

Lemma clean_values_not_nan (df : list Row) (dt g : string) (x : float) :
  (forall r, r ∈ df -> exists v, row_value r = Some v /\ is_nan v = false) ->
  x ∈ get_values_for_data_type_and_group df dt g -> is_nan x = false.
Proof.
  intros Hc. unfold get_values_for_data_type_and_group. rewrite list_elem_of_omap.
  intros (r & Hr & Hx). apply list_elem_of_filter in Hr as [_ Hr].
  destruct (Hc r Hr) as (v & Hv & Hn).
  rewrite Hv in Hx. injection Hx as ->. done.
Qed.

Lemma clean_nan_filter (df : list Row) (dt g : string) :
  (forall r, r ∈ df -> exists v, row_value r = Some v /\ is_nan v = false) ->
  filter (fun v => is_nan v = false) (get_values_for_data_type_and_group df dt g) =
  get_values_for_data_type_and_group df dt g.
Proof.
  intros Hc. apply BeeswarmProperties.filter_all. intros x. by apply clean_values_not_nan.
Qed.

Lemma prepared_values_clean (rows : list RawRow) :
  forall r, r ∈ prepare_data_single rows -> exists v, row_value r = Some v /\ is_nan v = false.
Proof. intros r Hr. apply (prepared_rows_fields rows r Hr). Qed.

Lemma prepared_values_not_nan (rows : list RawRow) (dt g : string) (x : float) :
  x ∈ get_values_for_data_type_and_group (prepare_data_single rows) dt g ->
  is_nan x = false.
Proof. apply clean_values_not_nan, prepared_values_clean. Qed.

Lemma prepared_nan_filter (rows : list RawRow) (dt g : string) :
  filter (fun v => is_nan v = false)
    (get_values_for_data_type_and_group (prepare_data_single rows) dt g) =
  get_values_for_data_type_and_group (prepare_data_single rows) dt g.
Proof. apply clean_nan_filter, prepared_values_clean. Qed.

Lemma foldl_insert_lookup {V} (f : string -> V) (L : list string)
    (m : gmap string V) (k : string) :
  foldl (fun m g => <[g := f g]> m) m L !! k =
  if bool_decide (k ∈ L) then Some (f k) else m !! k.
Proof.
  revert m. induction L as [|h t IH]; intros m; cbn [foldl].
  - rewrite bool_decide_false; [done|]. intros Hin. inversion Hin.
  - rewrite IH. destruct (decide (k ∈ t)) as [Ht|Ht].
    + rewrite !bool_decide_true by (try apply list_elem_of_further; done). done.
    + rewrite (bool_decide_false (k ∈ t)) by done.
      destruct (decide (k = h)) as [->|Hne].
      * rewrite bool_decide_true by apply list_elem_of_here. apply lookup_insert_eq.
      * rewrite bool_decide_false by (rewrite elem_of_cons; tauto).
        apply lookup_insert_ne. congruence.
Qed.

Lemma chart_groups_lookup (df : list Row) (dt : string) (stat : DataTypeStats) (g : string) :
  chart_data_by_group df dt stat !! g =
  if bool_decide (is_Some (group_stats stat !! g))
  then Some (filter (fun v => is_nan v = false) (get_values_for_data_type_and_group df dt g))
  else None.
Proof.
  unfold chart_data_by_group.
  rewrite (foldl_insert_lookup
             (fun g => filter (fun v => is_nan v = false)
                         (get_values_for_data_type_and_group df dt g))).
  rewrite lookup_empty.
  destruct (decide (is_Some (group_stats stat !! g))) as [H|H].
  - rewrite (bool_decide_true (is_Some _)) by done.
    rewrite bool_decide_true by (by apply OrderedGroupsProperties.ordered_groups_elem_of).
    done.
  - rewrite (bool_decide_false (is_Some _)) by done.
    rewrite bool_decide_false by (by rewrite OrderedGroupsProperties.ordered_groups_elem_of).
    done.
Qed.

Section Pipeline.
Context (StudentsT : Type)
        (students_t_new : float -> float -> float -> option StudentsT)
        (cdf : StudentsT -> float -> float)
        (unique : list string -> list string).

Lemma run_calculation_lookup (df : list Row) (ctrl dt : string) (cd : ChartData) :
  run_calculation_chart_data StudentsT students_t_new cdf unique df ctrl !! dt = Some cd <->
  exists stat,
    compute_all_stats_parallel StudentsT students_t_new cdf unique df ctrl !! dt = Some stat /\
    cd = mk_chart_data dt (chart_data_by_group df dt stat) stat.
Proof.
  unfold run_calculation_chart_data. cbv zeta. split.
  - intros Hl. apply elem_of_list_to_map_2, list_elem_of_fmap in Hl
      as ([d stat] & Hd & Hin). injection Hd as -> ->.
    apply elem_of_map_to_list in Hin. eauto.
  - intros (stat & Hs & ->). apply elem_of_list_to_map_1'.
    + intros y Hy. apply list_elem_of_fmap in Hy as ([d stat'] & Hd & Hin).
      injection Hd as -> ->. apply elem_of_map_to_list in Hin.
      rewrite Hs in Hin. injection Hin as ->. done.
    + apply list_elem_of_fmap. exists (dt, stat). split; [done|].
      by apply elem_of_map_to_list.
Qed.

Lemma run_calculation_fields (df : list Row) (ctrl dt : string) (cd : ChartData) :
  run_calculation_chart_data StudentsT students_t_new cdf unique df ctrl !! dt = Some cd ->
  chart_data_type cd = dt /\
  chart_stats cd = compute_data_type_stats StudentsT students_t_new cdf unique df dt ctrl /\
  data_by_group cd = chart_data_by_group df dt (chart_stats cd).
Proof.
  intros Hl. apply run_calculation_lookup in Hl as (stat & Hs & ->).
  apply TableProperties.all_stats_lookup in Hs as [-> _]. done.
Qed.

End Pipeline.

(** ** Theorems *)

Section PipelineTheorems.
Context (StudentsT : Type)
        (students_t_new : float -> float -> float -> option StudentsT)
        (cdf : StudentsT -> float -> float)
        (unique : list string -> list string).

(** Every row [prepare_data] keeps in single-column mode has a value that is
    present and not NaN, and its group and data type have no quote left to
    trim: running them through [to_string] and [trim_matches] on the double quote again
    gives them back. *)
Theorem prepared_rows_clean (rows : list RawRow) (r : Row) :
  r ∈ prepare_data_single rows ->
  (exists v, row_value r = Some v /\ is_nan v = false) /\
  trim_matches_quote (anyvalue_to_string (row_group r)) = row_group r /\
  trim_matches_quote (anyvalue_to_string (row_data_type r)) = row_data_type r.
Proof. apply prepared_rows_fields. Qed.

(** On a prepared table, [compute_all_stats_parallel] has an entry for a data
    type exactly when some row carries that data type (given that [unique]
    keeps the values of the column, as polars' [unique] does). *)
Theorem prepared_data_types_are_keys (rows : list RawRow) (ctrl dt : string) :
  (forall l x, x ∈ unique l <-> x ∈ l) ->
  is_Some (compute_all_stats_parallel StudentsT students_t_new cdf unique
             (prepare_data_single rows) ctrl !! dt) <->
  exists r, r ∈ prepare_data_single rows /\ row_data_type r = dt.
Proof.
  intros Hu. split.
  - intros [s Hs]. apply TableProperties.all_stats_lookup in Hs as [_ Hin].
    apply list_elem_of_fmap in Hin as (d & -> & Hin). apply (proj1 (Hu _ _)) in Hin.
    apply list_elem_of_fmap in Hin as (r & -> & Hr). exists r. split; [done|].
    by destruct (prepared_rows_fields rows r Hr) as (_ & _ & ->).
  - intros (r & Hr & <-).
    eexists. apply TableProperties.all_stats_lookup. split; [reflexivity|].
    apply list_elem_of_fmap. exists (row_data_type r). split.
    + by destruct (prepared_rows_fields rows r Hr) as (_ & _ & ->).
    + apply (proj2 (Hu _ _)). apply list_elem_of_fmap. eauto.
Qed.

(** The loop of [run_calculation] stores values for exactly the groups of the
    statistics: under each such group, the values of the data type for that
    group with NaN removed, and nothing under any other name. *)
Theorem chart_data_by_group_spec (df : list Row) (dt : string) (stat : DataTypeStats)
    (g : string) :
  chart_data_by_group df dt stat !! g =
  if bool_decide (is_Some (group_stats stat !! g))
  then Some (filter (fun v => is_nan v = false) (get_values_for_data_type_and_group df dt g))
  else None.
Proof. apply chart_groups_lookup. Qed.

(** On a prepared table, each chart [run_calculation] builds is the chart of
    its data type and carries that data type's statistics; it has values for
    exactly the groups of the statistics table, and the values drawn for a
    group are the ones its table row summarises: same count, mean, median,
    standard deviation, variance and percentiles, none of them NaN. *)
Theorem prepared_chart_matches_table (rows : list RawRow) (ctrl dt : string)
    (cd : ChartData) :
  run_calculation_chart_data StudentsT students_t_new cdf unique
    (prepare_data_single rows) ctrl !! dt = Some cd ->
  chart_data_type cd = dt /\
  chart_stats cd = compute_data_type_stats StudentsT students_t_new cdf unique
                     (prepare_data_single rows) dt ctrl /\
  (forall g, is_Some (data_by_group cd !! g) <-> is_Some (group_stats (chart_stats cd) !! g)) /\
  (forall g vs gs,
     data_by_group cd !! g = Some vs -> group_stats (chart_stats cd) !! g = Some gs ->
     Forall (fun x => is_nan x = false) vs /\
     let d := compute_descriptive_stats vs in
     count gs = length vs /\ mean gs = mean d /\
     StatsCalculator.median gs = StatsCalculator.median d /\
     std gs = std d /\ variance gs = variance d /\ p95 gs = p95 d /\ p05 gs = p05 d).
Proof.
  intros Hl. destruct (run_calculation_fields StudentsT students_t_new cdf unique _ ctrl dt cd Hl) as (Hdt & Hst & Hdbg).
  split; [done|]. split; [done|]. split.
  - intros g. rewrite Hdbg, chart_groups_lookup.
    case_bool_decide as H; [split; [done|intros _; eauto]|].
    split; [intros [? ?]; discriminate|done].
  - intros g vs gs Hv Hg. rewrite Hdbg, chart_groups_lookup in Hv.
    rewrite bool_decide_true in Hv by (eexists; exact Hg).
    injection Hv as <-. rewrite Hst, prepared_nan_filter in *.
    split.
    + apply Forall_forall. apply prepared_values_not_nan.
    + pose proof (TableProperties.entry_fields StudentsT students_t_new cdf unique
                    _ dt ctrl g gs Hg) as Hf.
      cbv zeta in Hf |- *. destruct Hf as (_ & Hf). exact Hf.
Qed.

End PipelineTheorems.

Lemma unique_keeps_values : forall l x, x ∈ LibModels.unique l <-> x ∈ l.
Proof. intros l x. apply elem_of_remove_dups. Qed.

Lemma prepared_rows_clean_witness :
  mk_row "A" "x" (Some 1) ∈ prepare_data_single LibModels.sample_raw_rows /\
  (exists v, row_value (mk_row "A" "x" (Some 1)) = Some v /\ is_nan v = false) /\
  trim_matches_quote (anyvalue_to_string (row_group (mk_row "A" "x" (Some 1)))) =
    row_group (mk_row "A" "x" (Some 1)) /\
  trim_matches_quote (anyvalue_to_string (row_data_type (mk_row "A" "x" (Some 1)))) =
    row_data_type (mk_row "A" "x" (Some 1)).
Proof.
  assert (Hr : mk_row "A" "x" (Some 1) ∈ prepare_data_single LibModels.sample_raw_rows)
    by (apply (list_elem_of_lookup_2 _ 0%nat); vm_compute; reflexivity).
  split; [exact Hr|].
  exact (prepared_rows_clean LibModels.sample_raw_rows _ Hr).
Defined.

Lemma prepared_data_types_are_keys_witness :
  (forall l x, x ∈ LibModels.unique l <-> x ∈ l) /\
  (is_Some (compute_all_stats_parallel LibModels.StudentsT LibModels.students_t_new
              LibModels.students_t_cdf LibModels.unique
              (prepare_data_single LibModels.sample_raw_rows) "A" !! "y") <->
   exists r, r ∈ prepare_data_single LibModels.sample_raw_rows /\
             row_data_type r = "y"%string).
Proof.
  split; [exact unique_keeps_values|].
  exact (prepared_data_types_are_keys LibModels.StudentsT LibModels.students_t_new
           LibModels.students_t_cdf LibModels.unique LibModels.sample_raw_rows "A" "y"
           unique_keeps_values).
Defined.

Lemma prepared_chart_matches_table_witness :
  exists cd,
    run_calculation_chart_data LibModels.StudentsT LibModels.students_t_new
      LibModels.students_t_cdf LibModels.unique
      (prepare_data_single LibModels.sample_raw_rows) "A" !! "x" = Some cd /\
    chart_data_type cd = "x"%string /\
    chart_stats cd = compute_data_type_stats LibModels.StudentsT LibModels.students_t_new
                       LibModels.students_t_cdf LibModels.unique
                       (prepare_data_single LibModels.sample_raw_rows) "x" "A".
Proof.
  set (cd := from_option id (mk_chart_data "" ∅ (mk_data_type_stats "" "" ∅))
               (run_calculation_chart_data LibModels.StudentsT LibModels.students_t_new
                  LibModels.students_t_cdf LibModels.unique
                  (prepare_data_single LibModels.sample_raw_rows) "A" !! "x")).
  assert (Hl : run_calculation_chart_data LibModels.StudentsT LibModels.students_t_new
                 LibModels.students_t_cdf LibModels.unique
                 (prepare_data_single LibModels.sample_raw_rows) "A" !! "x" = Some cd)
    by (unfold cd; vm_compute; reflexivity).
  exists cd. split; [exact Hl|].
  destruct (prepared_chart_matches_table LibModels.StudentsT LibModels.students_t_new
              LibModels.students_t_cdf LibModels.unique LibModels.sample_raw_rows "A" "x"
              cd Hl) as (Hdt & Hst & _).
  split; [exact Hdt|exact Hst].
Defined.

End PipelineProperties.

(* ------------------------------------------------------------------ *)
(** ** The order of the charts *)

Module ViewerProperties.
Import StatsCalculator ChartifyApp ChartViewerWidget.

Lemma mismatch_fold (l : list (string * ChartData)) (a b : list string) :
  foldl (fun '(mismatch, match_items) '(data_type, data) =>
           if has_significant_results (chart_stats data)
           then (mismatch ++ [data_type], match_items)
           else (mismatch, match_items ++ [data_type])) (a, b) l =
  (a ++ (filter significant_entry l).*1, b ++ (filter (fun p => ~ significant_entry p) l).*1).
Proof.
  revert a b. induction l as [|[dt d] t IH]; intros a b; cbn [foldl].
  - rewrite !app_nil_r. done.
  - rewrite !filter_cons.
    destruct (has_significant_results (chart_stats d)) eqn:Hs.
    + rewrite decide_True by done. rewrite decide_False by (unfold significant_entry; auto).
      rewrite IH, <- app_assoc. done.
    + rewrite decide_False by (unfold significant_entry; cbn; congruence).
      rewrite decide_True by (unfold significant_entry; cbn; congruence).
      rewrite IH, <- app_assoc. done.
Qed.

Lemma elem_of_filtered_keys (cd : gmap string ChartData) (Q : string * ChartData -> Prop)
    `{forall p, Decision (Q p)} (dt : string) :
  dt ∈ (filter Q (map_to_list cd)).*1 <-> exists d, cd !! dt = Some d /\ Q (dt, d).
Proof.
  rewrite list_elem_of_fmap. split.
  - intros ([k d] & -> & Hin). apply list_elem_of_filter in Hin as [HQ Hin].
    apply elem_of_map_to_list in Hin. eauto.
  - intros (d & Hl & HQ). exists (dt, d). split; [done|].
    apply list_elem_of_filter. split; [done|]. by apply elem_of_map_to_list.
Qed.

Lemma sorted_strings (l : list string) : StronglySorted String.le (merge_sort String.le l).
Proof. apply Sorted_StronglySorted; [apply _|]. apply Sorted_merge_sort. apply _. Qed.

(** [set_chart_data] keeps the charts and orders every data type exactly once
    (so as many entries as charts): first, in ascending order, the data types
    whose statistics have a significant result, then, in ascending order, the
    others. *)
Theorem set_chart_data_order (self : ChartViewer) (cd : gmap string ChartData) :
  let v := set_chart_data self cd in
  chart_data v = cd /\
  NoDup (data_type_order v) /\ length (data_type_order v) = size cd /\
  exists mismatch match_items,
    data_type_order v = mismatch ++ match_items /\
    StronglySorted String.le mismatch /\ StronglySorted String.le match_items /\
    (forall dt, dt ∈ mismatch <->
       exists d, cd !! dt = Some d /\ has_significant_results (chart_stats d) = true) /\
    (forall dt, dt ∈ match_items <->
       exists d, cd !! dt = Some d /\ has_significant_results (chart_stats d) = false).
Proof.
  cbv zeta. unfold set_chart_data. rewrite mismatch_fold, !app_nil_l.
  cbn [chart_data data_type_order].
  assert (Hp : merge_sort String.le (filter significant_entry (map_to_list cd)).*1 ++
               merge_sort String.le (filter (fun p => ~ significant_entry p) (map_to_list cd)).*1
               ≡ₚ (map_to_list cd).*1).
  { rewrite !merge_sort_Permutation, <- fmap_app, filter_app_complement. done. }
  split; [done|]. split; [rewrite Hp; apply NoDup_fst_map_to_list|].
  split; [rewrite Hp, length_fmap; apply length_map_to_list|].
  eexists _, _. split; [reflexivity|].
  split; [apply sorted_strings|]. split; [apply sorted_strings|].
  split; intros dt; rewrite merge_sort_Permutation, elem_of_filtered_keys;
    unfold significant_entry; cbn [snd].
  - done.
  - split; intros (d & Hl & Hs); exists d; split; try done.
    + by apply not_true_iff_false.
    + by apply not_true_iff_false.
Qed.
End ViewerProperties.

(* ------------------------------------------------------------------ *)
(** ** The multi-column mode of [prepare_data] *)

Module StackProperties.
Import StatsCalculator DataProcessor ChartifyApp.

Lemma stack_column_elem (gs : list (option string)) (dc : string)
    (cells : list (option float)) (r : Row) :
  r ∈ stack_column gs dc cells ->
  exists g v, r = mk_row (trim_matches_quote (anyvalue_to_string g)) dc (Some v) /\
              is_nan v = false.
Proof.
  unfold stack_column. rewrite list_elem_of_omap. intros ([og ov] & _ & Hr).
  destruct og as [g|], ov as [v|]; try discriminate.
  destruct (is_nan v) eqn:Hv; [discriminate|]. injection Hr as <-. eauto.
Qed.

Lemma stack_columns_elem (gs : list (option string)) (vc : string -> ValueColumn)
    (dcs : list string) (rows : list Row) (r : Row) :
  stack_columns gs vc dcs = inr rows -> r ∈ rows ->
  exists dc cells, dc ∈ dcs /\ vc dc = Cast cells /\ r ∈ stack_column gs dc cells.
Proof.
  revert rows. induction dcs as [|dc rest IH]; intros rows; cbn [stack_columns].
  - intros Hr. injection Hr as <-. intros Hin. inversion Hin.
  - destruct (vc dc) as [| |cells] eqn:Hvc.
    + intros Hs Hin. destruct (IH rows Hs Hin) as (dc' & cells & ? & ? & ?).
      exists dc', cells. split; [by apply list_elem_of_further|done].
    + discriminate.
    + destruct (stack_columns gs vc rest) as [e|rows'] eqn:Hs; [discriminate|].
      intros Hr. injection Hr as <-. intros Hin. apply elem_of_app in Hin as [Hin|Hin].
      * exists dc, cells. split; [apply list_elem_of_here|done].
      * destruct (IH rows' eq_refl Hin) as (dc' & cells' & ? & ? & ?).
        exists dc', cells'. split; [by apply list_elem_of_further|done].
Qed.

Lemma stack_columns_error (gs : list (option string)) (vc : string -> ValueColumn)
    (dcs : list string) (e : ProcessorError) :
  stack_columns gs vc dcs = inl e <->
  e = PolarsError /\ exists dc, dc ∈ dcs /\ vc dc = CastFailed.
Proof.
  revert e. induction dcs as [|dc rest IH]; intros e; cbn [stack_columns].
  - split; [discriminate|]. intros (_ & dc & Hin & _). inversion Hin.
  - destruct (vc dc) as [| |cells] eqn:Hvc.
    + rewrite IH. split.
      * intros (-> & dc' & Hin & Hf). split; [done|].
        exists dc'. split; [by apply list_elem_of_further|done].
      * intros (-> & dc' & Hin & Hf). split; [done|]. exists dc'.
        apply elem_of_cons in Hin as [->|Hin]; [congruence|done].
    + split.
      * intros He. injection He as <-. split; [done|].
        exists dc. split; [apply list_elem_of_here|done].
      * intros (-> & _). done.
    + destruct (stack_columns gs vc rest) as [e'|rows'] eqn:Hs.
      * destruct (proj1 (IH e') eq_refl) as (-> & dc' & Hin & Hf). split.
        -- intros He. injection He as <-. split; [done|].
           exists dc'. split; [by apply list_elem_of_further|done].
        -- intros (-> & _). done.
      * split; [discriminate|]. intros (-> & dc' & Hin & Hf).
        apply elem_of_cons in Hin as [->|Hin]; [congruence|].
        assert (Hc : inr rows' = inl PolarsError) by (apply IH; eauto).
        discriminate Hc.
Qed.

Lemma filter_stack_column (gs : list (option string)) (dc dc' : string)
    (cells : list (option float)) :
  filter (fun r => row_data_type r = dc) (stack_column gs dc' cells) =
  if bool_decide (dc' = dc) then stack_column gs dc' cells else [].
Proof.
  case_bool_decide as Heq.
  - apply BeeswarmProperties.filter_all. intros r Hr.
    destruct (stack_column_elem gs dc' cells r Hr) as (g & v & -> & _). done.
  - apply BeeswarmProperties.filter_none. intros r Hr.
    destruct (stack_column_elem gs dc' cells r Hr) as (g & v & -> & _). done.
Qed.

Lemma stack_columns_filter (gs : list (option string)) (vc : string -> ValueColumn)
    (dcs : list string) (rows : list Row) (dc : string) (cells : list (option float)) :
  NoDup dcs -> dc ∈ dcs -> vc dc = Cast cells ->
  stack_columns gs vc dcs = inr rows ->
  filter (fun r => row_data_type r = dc) rows = stack_column gs dc cells.
Proof.
  intros Hnd. revert rows. induction dcs as [|dc' rest IH]; intros rows Hin Hvc;
    [inversion Hin|].
  apply NoDup_cons in Hnd as [Hnin Hnd]. cbn [stack_columns].
  destruct (vc dc') as [| |cells'] eqn:Hvc'.
  - apply IH; [done| |done].
    apply elem_of_cons in Hin as [->|Hin]; [congruence|done].
  - discriminate.
  - destruct (stack_columns gs vc rest) as [e|rows'] eqn:Hs; [discriminate|].
    intros Hr. injection Hr as <-. rewrite filter_app, filter_stack_column.
    destruct (decide (dc' = dc)) as [->|Hne].
    + rewrite bool_decide_true by done. rewrite Hvc in Hvc'. injection Hvc' as ->.
      rewrite (BeeswarmProperties.filter_none _ rows'); [apply app_nil_r|].
      intros r Hr Hdt. destruct (stack_columns_elem gs vc rest rows' r Hs Hr)
        as (dc'' & cells'' & Hin'' & _ & Hr'').
      destruct (stack_column_elem gs dc'' cells'' r Hr'') as (g & v & -> & _).
      cbn [row_data_type] in Hdt. subst dc''. contradiction.
    + rewrite bool_decide_false by done. rewrite app_nil_l. apply IH; [done| |done|done].
      apply elem_of_cons in Hin as [->|Hin]; [congruence|done].
Qed.

Lemma stacked_rows_fields (gs : option (list (option string))) (vc : string -> ValueColumn)
    (odcs : option (list string)) (rows : list Row) (r : Row) :
  prepare_data_multi gs vc odcs = inr rows -> r ∈ rows ->
  ((exists v, row_value r = Some v /\ is_nan v = false) /\
   trim_matches_quote (anyvalue_to_string (row_group r)) = row_group r) /\
  exists dcs cells, odcs = Some dcs /\ row_data_type r ∈ dcs /\
                    vc (row_data_type r) = Cast cells.
Proof.
  unfold prepare_data_multi, stack_to_long.
  destruct odcs as [dcs|]; [|discriminate].
  case_bool_decide; [discriminate|].
  destruct gs as [gs|]; [|discriminate]. intros Hs Hr.
  destruct (stack_columns_elem gs vc dcs rows r Hs Hr) as (dc & cells & Hin & Hvc & Hrc).
  destruct (stack_column_elem gs dc cells r Hrc) as (g & v & -> & Hv).
  cbn [row_value row_group row_data_type].
  rewrite !TrimProperties.trim_anyvalue, !TrimProperties.trim_idempotent.
  split; [eauto|]. eauto.
Qed.

(** ** Theorems *)

(** [prepare_data] in multi-column mode fails with [MissingMultiModeColumns]
    when no data columns are given or the list is empty; otherwise it fails,
    with a polars error, exactly when the group column is missing or a
    listed value column exists but cannot be cast to [Float64]. *)
Theorem prepare_data_multi_errors (gs : option (list (option string)))
    (vc : string -> ValueColumn) (odcs : option (list string)) (e : ProcessorError) :
  prepare_data_multi gs vc odcs = inl e <->
  (e = MissingMultiModeColumns /\ (odcs = None \/ odcs = Some [])) \/
  (e = PolarsError /\ exists dcs, odcs = Some dcs /\ dcs <> [] /\
     (gs = None \/ exists dc, dc ∈ dcs /\ vc dc = CastFailed)).
Proof.
  unfold prepare_data_multi, stack_to_long.
  destruct odcs as [dcs|].
  - case_bool_decide as Hnil.
    + subst dcs. split.
      * intros He. injection He as <-. left. auto.
      * intros [[-> _]|(_ & dcs & Hd & Hne & _)]; [done|]. injection Hd as <-. done.
    + destruct gs as [gs|].
      * rewrite stack_columns_error. split.
        -- intros (-> & Hc). right. split; [done|]. exists dcs. auto.
        -- intros [[-> [Hn|Hn]]|(-> & dcs' & Hd & _ & [Hg|Hc])].
           ++ discriminate Hn.
           ++ injection Hn as Hn. contradiction.
           ++ discriminate Hg.
           ++ injection Hd as <-. split; [done|exact Hc].
      * split.
        -- intros He. injection He as <-. right. split; [done|]. exists dcs. auto.
        -- intros [[-> [Hn|Hn]]|(-> & _)].
           ++ discriminate Hn.
           ++ injection Hn as Hn. contradiction.
           ++ done.
  - split.
    + intros He. injection He as <-. left. auto.
    + intros [[-> _]|(_ & dcs & Hd & _)]; [done|discriminate].
Qed.

(** Every row of the multi-column [prepare_data] has a value that is present
    and not NaN and a group name with no quote left to trim; its data type is
    one of the given value columns, one that exists and was cast. *)
Theorem prepare_data_multi_rows (gs : option (list (option string)))
    (vc : string -> ValueColumn) (odcs : option (list string)) (rows : list Row) (r : Row) :
  prepare_data_multi gs vc odcs = inr rows -> r ∈ rows ->
  (exists v, row_value r = Some v /\ is_nan v = false) /\
  trim_matches_quote (anyvalue_to_string (row_group r)) = row_group r /\
  exists dcs cells, odcs = Some dcs /\ row_data_type r ∈ dcs /\
                    vc (row_data_type r) = Cast cells.
Proof.
  intros Hp Hr. destruct (stacked_rows_fields gs vc odcs rows r Hp Hr) as [[? ?] ?]. done.
Qed.

(** When the value columns are distinct, the rows [stack_to_long] gives a
    value column's name as data type are exactly those stacked from that
    column, in its row order. *)
Theorem stack_to_long_rows_of_column (gs : list (option string)) (vc : string -> ValueColumn)
    (dcs : list string) (rows : list Row) (dc : string) (cells : list (option float)) :
  NoDup dcs -> dc ∈ dcs -> vc dc = Cast cells ->
  stack_to_long (Some gs) vc dcs = inr rows ->
  filter (fun r => row_data_type r = dc) rows = stack_column gs dc cells.
Proof. apply stack_columns_filter. Qed.


Lemma prepare_data_multi_rows_witness :
  exists rows,
    prepare_data_multi (Some LibModels.sample_group_series) LibModels.sample_value_column
      (Some ["m1"; "m2"; "m3"]%string) = inr rows /\
    mk_row "B" "m1" (Some 2) ∈ rows /\
    exists v, row_value (mk_row "B" "m1" (Some 2)) = Some v /\ is_nan v = false.
Proof.
  exists (match prepare_data_multi (Some LibModels.sample_group_series)
                  LibModels.sample_value_column (Some ["m1"; "m2"; "m3"]%string) with
          | inr rows => rows
          | inl _ => []
          end).
  assert (Hp : prepare_data_multi (Some LibModels.sample_group_series)
                 LibModels.sample_value_column (Some ["m1"; "m2"; "m3"]%string) =
               inr (match prepare_data_multi (Some LibModels.sample_group_series)
                            LibModels.sample_value_column (Some ["m1"; "m2"; "m3"]%string) with
                    | inr rows => rows
                    | inl _ => []
                    end)) by (vm_compute; reflexivity).
  assert (Hr : mk_row "B" "m1" (Some 2) ∈
               match prepare_data_multi (Some LibModels.sample_group_series)
                       LibModels.sample_value_column (Some ["m1"; "m2"; "m3"]%string) with
               | inr rows => rows
               | inl _ => []
               end) by (apply (list_elem_of_lookup_2 _ 1%nat); vm_compute; reflexivity).
  split; [exact Hp|]. split; [exact Hr|].
  exact (proj1 (prepare_data_multi_rows _ _ _ _ _ Hp Hr)).
Defined.

Lemma stack_to_long_rows_of_column_witness :
  exists rows,
    NoDup ["m1"; "m2"; "m3"]%string /\ "m2"%string ∈ ["m1"; "m2"; "m3"]%string /\
    LibModels.sample_value_column "m2" = Cast [Some 4; None; Some 6; Some 7] /\
    stack_to_long (Some LibModels.sample_group_series) LibModels.sample_value_column
      ["m1"; "m2"; "m3"]%string = inr rows /\
    filter (fun r => row_data_type r = "m2"%string) rows =
    stack_column LibModels.sample_group_series "m2" [Some 4; None; Some 6; Some 7].
Proof.
  exists (match stack_to_long (Some LibModels.sample_group_series)
                  LibModels.sample_value_column ["m1"; "m2"; "m3"]%string with
          | inr rows => rows
          | inl _ => []
          end).
  assert (Hnd : NoDup ["m1"; "m2"; "m3"]%string)
    by (apply (bool_decide_unpack _); vm_compute; reflexivity).
  assert (Hin : "m2"%string ∈ ["m1"; "m2"; "m3"]%string)
    by (apply list_elem_of_further, list_elem_of_here).
  assert (Hvc : LibModels.sample_value_column "m2" = Cast [Some 4; None; Some 6; Some 7])
    by (vm_compute; reflexivity).
  assert (Hs : stack_to_long (Some LibModels.sample_group_series)
                 LibModels.sample_value_column ["m1"; "m2"; "m3"]%string =
               inr (match stack_to_long (Some LibModels.sample_group_series)
                            LibModels.sample_value_column ["m1"; "m2"; "m3"]%string with
                    | inr rows => rows
                    | inl _ => []
                    end)) by (vm_compute; reflexivity).
  split; [exact Hnd|]. split; [exact Hin|]. split; [exact Hvc|]. split; [exact Hs|].
  exact (stack_to_long_rows_of_column _ _ _ _ _ _ Hnd Hin Hvc Hs).
Defined.

End StackProperties.
